(** * SearchPage: the search controller and its result presentation

    A shallow embedding of [src/components/SearchPage.jsx]: the values a
    parsed JSON response can hold, the JavaScript operators the component
    applies to them ([||], [??], [.], [?.]), the submit handler
    [handleSearch] with its [try]/[catch]/[finally], the expand toggle and
    the three conditional panels of the rendered page.

    Conventions of the model.
    - A JavaScript string is a [string]; each character stands for one code
      unit in the range 0..255.
    - A JSON number is a rational [Q]: the component never computes with a
      score, it only tests it for zero and passes it on.
    - An object is a finite map from property names to values.
    - The component state lives in one record [World] together with what
      the handler touches outside React: [window.__searchMeta], the
      requests handed to [fetch], the console and the submit event. *)

From Stdlib Require Import QArith Ascii String.
From stdpp Require Import gmap strings list.

Set Warnings "-register-all".
Local Open Scope string_scope.

(** ** JavaScript values *)

Inductive value : Type :=
| VUndefined
| VNull
| VBool (b : bool)
| VNum (q : Q)
| VStr (s : string)
| VArr (l : list value)
| VObj (o : gmap string value).

(** ToBoolean. *)
Definition truthy (v : value) : bool :=
  match v with
  | VUndefined | VNull => false
  | VBool b => b
  | VNum q => negb (Qeq_bool q 0)
  | VStr s => negb (String.eqb s "")
  | VArr _ | VObj _ => true
  end.

Definition nullish (v : value) : bool :=
  match v with
  | VUndefined | VNull => true
  | _ => false
  end.

(** [a || b] *)
Definition js_or (a b : value) : value := if truthy a then a else b.

(** [a ?? b] *)
Definition js_coalesce (a b : value) : value := if nullish a then b else a.

Definition isArray (v : value) : bool :=
  match v with
  | VArr _ => true
  | _ => false
  end.

(** ** Exceptions *)

Inductive exn : Type :=
| TypeError        (* property read on null/undefined, call of a non-function *)
| SyntaxError      (* [resp.json()] rejects: the body is not JSON *)
| NetworkError.    (* [fetch] rejects: the request did not complete *)

Inductive result (A : Type) : Type :=
| Ok (a : A)
| Throw (e : exn).
Arguments Ok {A} a.
Arguments Throw {A} e.

Definition rbind {A B} (r : result A) (k : A → result B) : result B :=
  match r with
  | Ok a => k a
  | Throw e => Throw e
  end.

Declare Scope result_scope.
Delimit Scope result_scope with result.
Notation "x <- r ;; k" := (rbind r (λ x, k))
  (at level 100, r at next level, right associativity) : result_scope.

(** [v.k], for the property names the component reads ([record], [score],
    [title], [authors], [journal], [year], [abstract], [mesh_terms],
    [url_full_text], [url_pubmed], [results], [total_results],
    [results_range]): none of them is an own or inherited property of an
    array, a string, a number or a boolean, so on those the read gives
    [undefined]; on [null] and [undefined] it throws. *)
Definition member (v : value) (k : string) : result value :=
  match v with
  | VUndefined | VNull => Throw TypeError
  | VObj o => Ok (default VUndefined (o !! k))
  | VBool _ | VNum _ | VStr _ | VArr _ => Ok VUndefined
  end.

(** [v?.k]: short-circuits to [undefined] on [null] and [undefined], so it
    never throws. *)
Definition opt_member (v : value) (k : string) : value :=
  match v with
  | VObj o => default VUndefined (o !! k)
  | _ => VUndefined
  end.

(** ** Normalisation of the response (lines 42-57) *)

Record SearchResult : Type := {
  id : nat;
  title : value;
  authors : value;
  journal : value;
  year : value;
  abstract : value;
  relevanceScore : value;
  mesh_terms : value;
  url_full_text : value;
  url_pubmed : value
}.

(** [item.record?.k]: [item.record] is an unguarded read. *)
Definition record_field (item : value) (k : string) : result value :=
  (r <- member item "record" ;; Ok (opt_member r k))%result.

(** The callback of [.map] at line 46. *)
Definition mapItem (item : value) (idx : nat) : result SearchResult :=
  (t <- record_field item "title" ;;
   au <- record_field item "authors" ;;
   j <- record_field item "journal" ;;
   y <- record_field item "year" ;;
   ab <- record_field item "abstract" ;;
   sc <- member item "score" ;;
   mt <- record_field item "mesh_terms" ;;
   uf <- record_field item "url_full_text" ;;
   up <- record_field item "url_pubmed" ;;
   Ok {| id := idx + 1;
         title := js_or t (VStr "");
         authors := js_or au (VStr "");
         journal := js_or j (VStr "");
         year := js_or y (VStr "");
         abstract := js_or ab (VStr "");
         relevanceScore := js_or sc (VNum 0);
         mesh_terms := js_or mt (VArr []);
         url_full_text := js_or uf VNull;
         url_pubmed := js_or up VNull |})%result.

(** [Array.prototype.map] with a callback that may throw: elements are
    visited in index order and the first exception aborts the loop. *)
Fixpoint array_map {A} (f : value → nat → result A) (l : list value) (idx : nat)
  : result (list A) :=
  match l with
  | [] => Ok []
  | x :: l' =>
      (y <- f x idx ;;
       ys <- array_map f l' (S idx) ;;
       Ok (y :: ys))%result
  end.

(** Line 44: [Array.isArray(data) ? data : (data?.results || [])]. *)
Definition response_list (data : value) : value :=
  if isArray data then data else js_or (opt_member data "results") (VArr []).

(** Lines 46-57: [(list || []).map(...)]; calling [.map] on anything but an
    array is a TypeError. *)
Definition map_list (lst : value) : result (list SearchResult) :=
  match js_or lst (VArr []) with
  | VArr items => array_map mapItem items 0
  | _ => Throw TypeError
  end.

Definition normalize (data : value) : result (list SearchResult) :=
  map_list (response_list data).

(** Lines 60-63: the object stored in [window.__searchMeta]. *)
Record SearchMeta : Type := {
  total_results : value;
  results_range : value
}.

Definition response_meta (data : value) : SearchMeta :=
  {| total_results := opt_member data "total_results";
     results_range := opt_member data "results_range" |}.

(** ** Strings: [String.prototype.trim] *)

(** WhiteSpace and LineTerminator code units below 256: TAB, LF, VT, FF,
    CR, SP and NBSP. *)
Definition is_whitespace (c : ascii) : bool :=
  let n := nat_of_ascii c in
  (Nat.leb 9 n && Nat.leb n 13) || Nat.eqb n 32 || Nat.eqb n 160.

Fixpoint trimStart (s : string) : string :=
  match s with
  | EmptyString => EmptyString
  | String c s' => if is_whitespace c then trimStart s' else s
  end.

Definition trimEnd (s : string) : string :=
  String.rev (trimStart (String.rev s)).

Definition trim (s : string) : string := trimEnd (trimStart s).

(** ToBoolean of a string. *)
Definition truthy_string (s : string) : bool := negb (String.eqb s "").

Fixpoint all_whitespace (s : string) : bool :=
  match s with
  | EmptyString => true
  | String c s' => is_whitespace c && all_whitespace s'
  end.

(** ** The world the component runs in *)

Module Filters.
Record t : Type := { year : string; journal : string; sortBy : string }.
Definition initial : t := {| year := ""; journal := ""; sortBy := "relevance" |}.
End Filters.

(** What [fetch] is called with; [body] is the object handed to
    [JSON.stringify]. *)
Record Request : Type := {
  url : string;
  method : string;
  headers : list (string * string);
  body : value
}.

(** What the service answers: the promise of [fetch] rejects, or it
    resolves with a status and a body that [resp.json()] parses or not. *)
Record Response : Type := {
  status : nat;
  json_body : option value
}.

Inductive fetch_outcome : Type :=
| Rejected
| Resolved (resp : Response).

(** [resp.ok]: the status is in the range 200-299. *)
Definition ok (resp : Response) : bool :=
  Nat.leb 200 (status resp) && Nat.leb (status resp) 299.

Inductive log_arg : Type :=
| LogStatus (n : nat)
| LogError (e : exn).

Record World : Type := {
  (* useState, lines 6-16 *)
  searchQuery : string;
  searchResults : list SearchResult;
  isLoading : bool;
  mode : string;
  useMesh : bool;
  expandedIds : gset nat;
  filters : Filters.t;
  (* window.__searchMeta; None is [undefined] *)
  searchMeta : option SearchMeta;
  (* calls of fetch, oldest first *)
  requests : list Request;
  (* calls of console.error, oldest first *)
  console : list (string * log_arg);
  (* submit events on which preventDefault was called *)
  defaultPrevented : nat
}.

Definition initial : World :=
  {| searchQuery := "";
     searchResults := [];
     isLoading := false;
     mode := "semantic";
     useMesh := true;
     expandedIds := ∅;
     filters := Filters.initial;
     searchMeta := None;
     requests := [];
     console := [];
     defaultPrevented := 0 |}.

Definition set_searchQuery (x : string) (w : World) : World :=
  {| searchQuery := x; searchResults := searchResults w;
     isLoading := isLoading w; mode := mode w; useMesh := useMesh w;
     expandedIds := expandedIds w; filters := filters w;
     searchMeta := searchMeta w; requests := requests w;
     console := console w; defaultPrevented := defaultPrevented w |}.

Definition set_searchResults (x : list SearchResult) (w : World) : World :=
  {| searchQuery := searchQuery w; searchResults := x;
     isLoading := isLoading w; mode := mode w; useMesh := useMesh w;
     expandedIds := expandedIds w; filters := filters w;
     searchMeta := searchMeta w; requests := requests w;
     console := console w; defaultPrevented := defaultPrevented w |}.

Definition set_isLoading (x : bool) (w : World) : World :=
  {| searchQuery := searchQuery w; searchResults := searchResults w;
     isLoading := x; mode := mode w; useMesh := useMesh w;
     expandedIds := expandedIds w; filters := filters w;
     searchMeta := searchMeta w; requests := requests w;
     console := console w; defaultPrevented := defaultPrevented w |}.

Definition set_mode (x : string) (w : World) : World :=
  {| searchQuery := searchQuery w; searchResults := searchResults w;
     isLoading := isLoading w; mode := x; useMesh := useMesh w;
     expandedIds := expandedIds w; filters := filters w;
     searchMeta := searchMeta w; requests := requests w;
     console := console w; defaultPrevented := defaultPrevented w |}.

Definition set_useMesh (x : bool) (w : World) : World :=
  {| searchQuery := searchQuery w; searchResults := searchResults w;
     isLoading := isLoading w; mode := mode w; useMesh := x;
     expandedIds := expandedIds w; filters := filters w;
     searchMeta := searchMeta w; requests := requests w;
     console := console w; defaultPrevented := defaultPrevented w |}.

Definition set_expandedIds (x : gset nat) (w : World) : World :=
  {| searchQuery := searchQuery w; searchResults := searchResults w;
     isLoading := isLoading w; mode := mode w; useMesh := useMesh w;
     expandedIds := x; filters := filters w;
     searchMeta := searchMeta w; requests := requests w;
     console := console w; defaultPrevented := defaultPrevented w |}.

Definition set_filters (x : Filters.t) (w : World) : World :=
  {| searchQuery := searchQuery w; searchResults := searchResults w;
     isLoading := isLoading w; mode := mode w; useMesh := useMesh w;
     expandedIds := expandedIds w; filters := x;
     searchMeta := searchMeta w; requests := requests w;
     console := console w; defaultPrevented := defaultPrevented w |}.

Definition set_searchMeta (x : option SearchMeta) (w : World) : World :=
  {| searchQuery := searchQuery w; searchResults := searchResults w;
     isLoading := isLoading w; mode := mode w; useMesh := useMesh w;
     expandedIds := expandedIds w; filters := filters w;
     searchMeta := x; requests := requests w;
     console := console w; defaultPrevented := defaultPrevented w |}.

Definition set_requests (x : list Request) (w : World) : World :=
  {| searchQuery := searchQuery w; searchResults := searchResults w;
     isLoading := isLoading w; mode := mode w; useMesh := useMesh w;
     expandedIds := expandedIds w; filters := filters w;
     searchMeta := searchMeta w; requests := x;
     console := console w; defaultPrevented := defaultPrevented w |}.

Definition set_console (x : list (string * log_arg)) (w : World) : World :=
  {| searchQuery := searchQuery w; searchResults := searchResults w;
     isLoading := isLoading w; mode := mode w; useMesh := useMesh w;
     expandedIds := expandedIds w; filters := filters w;
     searchMeta := searchMeta w; requests := requests w;
     console := x; defaultPrevented := defaultPrevented w |}.

Definition set_defaultPrevented (x : nat) (w : World) : World :=
  {| searchQuery := searchQuery w; searchResults := searchResults w;
     isLoading := isLoading w; mode := mode w; useMesh := useMesh w;
     expandedIds := expandedIds w; filters := filters w;
     searchMeta := searchMeta w; requests := requests w;
     console := console w; defaultPrevented := x |}.

(** ** Computations over the world that may throw *)

Definition M (A : Type) : Type := World → result A * World.

Definition ret {A} (a : A) : M A := λ w, (Ok a, w).

Definition throw {A} (e : exn) : M A := λ w, (Throw e, w).

Definition bind {A B} (m : M A) (k : A → M B) : M B :=
  λ w, match m w with
       | (Ok a, w') => k a w'
       | (Throw e, w') => (Throw e, w')
       end.

Definition lift {A} (r : result A) : M A := λ w, (r, w).

Definition gets {A} (f : World → A) : M A := λ w, (Ok (f w), w).

Definition modify (f : World → World) : M unit := λ w, (Ok tt, f w).

(** [try { body } catch (err) { handler err }] *)
Definition try_catch {A} (body : M A) (handler : exn → M A) : M A :=
  λ w, match body w with
       | (Ok a, w') => (Ok a, w')
       | (Throw e, w') => handler e w'
       end.

(** [try { body } finally { fin }]: [fin] runs on both completions of
    [body]; the completion of [body] stands unless [fin] itself throws. *)
Definition try_finally {A} (body : M A) (fin : M unit) : M A :=
  λ w, let (r, w') := body w in
       match fin w' with
       | (Ok _, w'') => (r, w'')
       | (Throw e, w'') => (Throw e, w'')
       end.

Definition try_catch_finally {A} (body : M A) (handler : exn → M A) (fin : M unit)
  : M A :=
  try_finally (try_catch body handler) fin.

Declare Scope M_scope.
Delimit Scope M_scope with M.
Bind Scope M_scope with M.
Notation "x <- m ;; k" := (bind m (λ x, k))
  (at level 100, m at next level, right associativity) : M_scope.
Notation "m ;; k" := (bind m (λ _, k))
  (at level 100, right associativity) : M_scope.

Definition exec {A} (m : M A) (w : World) : World := snd (m w).
Definition completion {A} (m : M A) (w : World) : result A := fst (m w).

(** ** The submit handler (lines 18-71) *)

Definition preventDefault : M unit :=
  modify (λ w, set_defaultPrevented (S (defaultPrevented w)) w).

Definition setIsLoading (b : bool) : M unit := modify (set_isLoading b).

Definition setSearchResults (l : list SearchResult) : M unit :=
  modify (set_searchResults l).

Definition setSearchMeta (m : SearchMeta) : M unit :=
  modify (set_searchMeta (Some m)).

Definition console_error (msg : string) (a : log_arg) : M unit :=
  modify (λ w, set_console (console w ++ [(msg, a)]) w).

(** Lines 24-36: the argument of [fetch]. *)
Definition search_request (query : string) (mode : string) (useMesh : bool)
  : Request :=
  {| url := "http://localhost:8000/search";
     method := "POST";
     headers := [("Content-Type", "application/json")];
     body := VObj (list_to_map
               [("query", VStr query);
                ("mode", VStr mode);
                ("use_mesh", VBool useMesh);
                ("max_results", VNum 25);
                ("retmax", VNum 200)]) |}.

Section Handler.

(** The search service, as the handler sees it: what each request ends in. *)
Variable server : Request → fetch_outcome.

(** [await fetch(...)]: the call is recorded, then the promise settles. *)
Definition fetch (req : Request) : M Response :=
  (modify (λ w, set_requests (requests w ++ [req]) w) ;;
   match server req with
   | Rejected => throw NetworkError
   | Resolved resp => ret resp
   end)%M.

(** [await resp.json()] *)
Definition json (resp : Response) : M value :=
  match json_body resp with
  | Some data => ret data
  | None => throw SyntaxError
  end.

(** Lines 24-64, the [try] block. [query], [mode] and [useMesh] are the
    values the handler closed over. *)
Definition search_try (query mode : string) (useMesh : bool) : M unit :=
  (resp <- fetch (search_request query mode useMesh) ;;
   if negb (ok resp) then
     (console_error "Search failed" (LogStatus (status resp)) ;;
      setSearchResults [])
   else
     (data <- json resp ;;
      mapped <- lift (normalize data) ;;
      setSearchResults mapped ;;
      setSearchMeta (response_meta data)))%M.

(** Lines 65-67, the [catch] block. *)
Definition search_catch (err : exn) : M unit :=
  (console_error "Network error" (LogError err) ;;
   setSearchResults [])%M.

(** Lines 68-70, the [finally] block. *)
Definition search_finally : M unit := setIsLoading false.

Definition search_guarded (query mode : string) (useMesh : bool) : M unit :=
  try_catch_finally (search_try query mode useMesh) search_catch search_finally.

(** Lines 19-22, what the handler runs before it enters the [try]: it closes
    over the [searchQuery], [mode] and [useMesh] of its render, prevents the
    default of the event and, unless the guard of line 20 returns, sets the
    loading flag. The value is [None] when the guard returned and the
    closed-over values otherwise; the world it leaves is the one the [try]
    block starts from. *)
Definition handleSearch_begin : M (option (string * string * bool)) :=
  (query <- gets searchQuery ;;
   mode <- gets mode ;;
   useMesh <- gets useMesh ;;
   preventDefault ;;
   if negb (truthy_string (trim query)) then ret None
   else
     (setIsLoading true ;;
      ret (Some (query, mode, useMesh))))%M.

(** Lines 18-71. *)
Definition handleSearch : M unit :=
  (started <- handleSearch_begin ;;
   match started with
   | None => ret tt
   | Some (query, mode, useMesh) => search_guarded query mode useMesh
   end)%M.

End Handler.

(** ** Result presentation *)

(** Lines 305-309: the updater handed to [setExpandedIds]; it works on a
    copy of the previous set. *)
Definition toggle (rid : nat) (prev : gset nat) : gset nat :=
  let next := prev in
  if decide (rid ∈ next) then next ∖ {[rid]} else next ∪ {[rid]}.

Definition onToggle (rid : nat) (w : World) : World :=
  set_expandedIds (toggle rid (expandedIds w)) w.

(** One result card, lines 261-338. *)
Record Card : Type := {
  card_result : SearchResult;
  card_text : value;          (* the paragraph at line 298 *)
  card_clamped : bool;        (* the four-line clamp of lines 291-296 *)
  card_toggle_label : string; (* line 314 *)
  card_pubmed_disabled : bool (* line 332 *)
}.

Definition render_card (expanded : gset nat) (r : SearchResult) : Card :=
  {| card_result := r;
     card_text := abstract r;
     card_clamped := negb (bool_decide (id r ∈ expanded));
     card_toggle_label :=
       if bool_decide (id r ∈ expanded) then "Show Less" else "Read Full Text";
     card_pubmed_disabled := negb (truthy (url_pubmed r)) |}.

(** The header of the result list, lines 246-247. *)
Definition papers_found (w : World) : value :=
  js_coalesce
    (match searchMeta w with Some m => total_results m | None => VUndefined end)
    (VNum (inject_Z (Z.of_nat (length (searchResults w))))).

Definition showing_range (w : World) : option value :=
  match searchMeta w with
  | Some m => if truthy (results_range m) then Some (results_range m) else None
  | None => None
  end.

Record ResultsPanel : Type := {
  panel_found : value;
  panel_range : option value;
  panel_cards : list Card
}.

(** Line 238: [searchResults.length > 0 && (...)]. *)
Definition results_panel (w : World) : option ResultsPanel :=
  if Nat.ltb 0 (length (searchResults w)) then
    Some {| panel_found := papers_found w;
            panel_range := showing_range w;
            panel_cards := map (render_card (expandedIds w)) (searchResults w) |}
  else None.

(** Line 344: [searchResults.length === 0 && !isLoading && searchQuery &&
    (...)]; the panel quotes the query (line 352). *)
Definition no_results_panel (w : World) : option string :=
  if Nat.eqb (length (searchResults w)) 0
     && negb (isLoading w)
     && truthy_string (searchQuery w)
  then Some (searchQuery w)
  else None.

(** Line 368: [isLoading && (...)]. *)
Definition loading_panel (w : World) : bool := isLoading w.

(** ** Events of the page *)

Inductive event : Type :=
| ChangeQuery (s : string)                     (* line 125 *)
| ChangeFilters (f : Filters.t)                (* lines 142, 159, 177 *)
| ChangeMode (m : string)                      (* line 196 *)
| ChangeUseMesh (b : bool)                     (* line 210 *)
| Submit (server : Request → fetch_outcome)    (* line 114 *)
| Toggle (rid : nat).                          (* line 304 *)

(** A submit is one step: the handler runs to its end with the outcome the
    service gives its request, and no other event comes in between. What
    the page shows in between is [awaiting], below. *)
Definition step (w : World) (e : event) : World :=
  match e with
  | ChangeQuery s => set_searchQuery s w
  | ChangeFilters f => set_filters f w
  | ChangeMode m => set_mode m w
  | ChangeUseMesh b => set_useMesh b w
  | Submit server => exec (handleSearch server) w
  | Toggle rid => onToggle rid w
  end.

Definition run (es : list event) (w : World) : World := fold_left step es w.

(** The world the page shows while the request of a submit is awaited:
    [setIsLoading(true)] has run, the [try] block has not settled. *)
Definition awaiting (w : World) : World :=
  set_isLoading true (set_defaultPrevented (S (defaultPrevented w)) w).

(** A request has left the page: some submit passed the guard of line 20. *)
Definition submitted (w : World) : Prop := requests w ≠ [].

(** What a service does. *)
Definition responds (o : fetch_outcome) : Request → fetch_outcome := λ _, o.

Definition failed (o : fetch_outcome) : bool :=
  match o with
  | Rejected => true
  | Resolved resp => negb (ok resp)
  end.

(** ** Vocabulary of the statements *)

(** A response with a JSON body. *)
Definition json_response (st : nat) (data : value) : Response :=
  {| status := st; json_body := Some data |}.

(** The item's nested record holds the field [k]. *)
Definition has_field (item : value) (k : string) : bool :=
  match item with
  | VObj o =>
      match o !! "record" with
      | Some (VObj rec) =>
          match rec !! k with
          | Some _ => true
          | None => false
          end
      | _ => false
      end
  | _ => false
  end.

Definition is_undefined (v : value) : bool :=
  match v with
  | VUndefined => true
  | _ => false
  end.

(** No field of the result is [undefined]. *)
Definition defined_fields (r : SearchResult) : bool :=
  negb (is_undefined (title r) || is_undefined (authors r)
        || is_undefined (journal r) || is_undefined (year r)
        || is_undefined (abstract r) || is_undefined (relevanceScore r)
        || is_undefined (mesh_terms r) || is_undefined (url_full_text r)
        || is_undefined (url_pubmed r)).

(** The item of the README's response example, with score 0.87. *)
Definition scenario_item : value :=
  VObj (list_to_map
    [("score", VNum (87 # 100));
     ("record", VObj (list_to_map
        [("title", VStr "T"); ("authors", VStr "A"); ("journal", VStr "J");
         ("year", VNum 2023); ("abstract", VStr "...");
         ("mesh_terms", VArr [VStr "x"])]))]).

(** The same item inside the object shape, with its metadata. *)
Definition scenario_wrapped : gmap string value :=
  list_to_map
    [("results", VArr [scenario_item]);
     ("total_results", VNum 1);
     ("results_range", VStr "1-1")].

(** The page after the user typed the query of the README's example. *)
Definition typed_example : World :=
  run [ChangeQuery "cancer immunotherapy"] initial.

(** The page after that query was answered with the wrapped scenario. *)
Definition after_success : World :=
  run [ChangeQuery "cancer immunotherapy";
       Submit (responds (Resolved (json_response 200 (VObj scenario_wrapped))))]
      initial.

(** The page while a second submit of the same query is in flight. *)
Definition second_submit : World := awaiting after_success.

(** A submit whose request fails whatever it asks; other events are free. *)
Definition failing_event (e : event) : Prop :=
  match e with
  | Submit server => ∀ req, failed (server req) = true
  | _ => True
  end.

(** The world after the [catch] and [finally] blocks. *)
Definition recovered (entry : string * log_arg) (req : Request) (w : World)
  : World :=
  set_isLoading false
    (set_searchResults []
       (set_console (console w ++ [entry])
          (set_requests (requests w ++ [req]) w))).

(** The world after the [else] branch and the [finally] block. *)
Definition succeeded (l : list SearchResult) (m : SearchMeta) (req : Request)
    (w : World) : World :=
  set_isLoading false
    (set_searchMeta (Some m)
       (set_searchResults l (set_requests (requests w ++ [req]) w))).

(** ** Vocabulary of the further properties *)

(** The items of a body that reach [.map]: the body itself when it is an
    array, its [results] when that is an array, no item when [results] is
    missing or falsy; [None] when [results] is truthy and not an array, for
    then [.map] is not a function. *)
Definition response_items (data : value) : option (list value) :=
  match data with
  | VArr items => Some items
  | VObj o =>
      match o !! "results" with
      | Some (VArr items) => Some items
      | Some r => if truthy r then None else Some []
      | None => Some []
      end
  | _ => Some []
  end.



(** The request the handler of a world sends. *)
Definition request_of (w : World) : Request :=
  search_request (searchQuery w) (mode w) (useMesh w).

(** What lines 42-57 make of a 2xx response: the normalised list, or the
    exception of [resp.json()] or of the mapping. *)
Definition body_results (resp : Response) : result (list SearchResult) :=
  match json_body resp with
  | Some data => normalize data
  | None => Throw SyntaxError
  end.

(** The result list an outcome of the request stands for. *)
Definition outcome_results (o : fetch_outcome) : list SearchResult :=
  match o with
  | Rejected => []
  | Resolved resp =>
      if ok resp then
        match body_results resp with
        | Ok l => l
        | Throw _ => []
        end
      else []
  end.

(** The submits among a list of events. *)
Fixpoint count_submits (es : list event) : nat :=
  match es with
  | [] => 0
  | Submit _ :: es' => S (count_submits es')
  | _ :: es' => count_submits es'
  end.

(** A field of a stored result holds a truthy value or its default. *)
Definition truthy_or (d : value) (v : value) : Prop :=
  truthy v = true ∨ v = d.

Definition normal_form (r : SearchResult) : Prop :=
  truthy_or (VStr "") (title r)
  ∧ truthy_or (VStr "") (authors r)
  ∧ truthy_or (VStr "") (journal r)
  ∧ truthy_or (VStr "") (year r)
  ∧ truthy_or (VStr "") (abstract r)
  ∧ truthy_or (VNum 0) (relevanceScore r)
  ∧ truthy (mesh_terms r) = true
  ∧ truthy_or VNull (url_full_text r)
  ∧ truthy_or VNull (url_pubmed r).

(** Lines 326-330: the call of [window.open] a click on "View on PubMed"
    makes, if it makes one: the URL, the target and the features. *)
Definition pubmed_click (r : SearchResult) : option (value * string * string) :=
  if truthy (url_pubmed r)
  then Some (url_pubmed r, "_blank", "noopener,noreferrer")
  else None.

(** The string does not start, or end, with white space. *)
Definition starts_clean (s : string) : bool :=
  match s with
  | EmptyString => true
  | String c _ => negb (is_whitespace c)
  end.

Definition ends_clean (s : string) : bool := starts_clean (String.rev s).






(** The value an item holds for the field [k] of its nested record, if it
    holds one. *)
Definition record_value (item : value) (k : string) : option value :=
  match item with
  | VObj o =>
      match o !! "record" with
      | Some (VObj rec) => rec !! k
      | _ => None
      end
  | _ => None
  end.

(** The value an item holds for its own property [k], if it holds one. *)
Definition item_value (item : value) (k : string) : option value :=
  match item with
  | VObj o => o !! k
  | _ => None
  end.

(** [v] is the value [raw] of the response when there is one and it is
    truthy, and the default [d] when it is missing or falsy. *)
Definition copied_or (d : value) (raw : option value) (v : value) : Prop :=
  match raw with
  | Some x => if truthy x then v = x else v = d
  | None => v = d
  end.

(** * Properties *)

(** ** Strings *)

Lemma truthy_string_true (s : string) : truthy_string s = true ↔ s ≠ "".
Proof.
  unfold truthy_string. rewrite negb_true_iff. apply String.eqb_neq.
Qed.

Lemma truthy_string_false (s : string) : truthy_string s = false ↔ s = "".
Proof.
  unfold truthy_string. rewrite negb_false_iff. apply String.eqb_eq.
Qed.

Lemma trimStart_empty (s : string) : trimStart s = "" ↔ all_whitespace s = true.
Proof.
  induction s as [|c s IH]; simpl; [done|].
  destruct (is_whitespace c); simpl; [exact IH|]. split; discriminate.
Qed.

Lemma rev_app_empty (s1 s2 : string) :
  String.rev_app s1 s2 = "" → s1 = "" ∧ s2 = "".
Proof.
  revert s2. induction s1 as [|c s1 IH]; simpl; intros s2 H; [done|].
  apply IH in H as [_ H]. discriminate.
Qed.

Lemma all_whitespace_rev_app (s1 s2 : string) :
  all_whitespace (String.rev_app s1 s2) = all_whitespace s1 && all_whitespace s2.
Proof.
  revert s2. induction s1 as [|c s1 IH]; simpl; intros s2; [done|].
  rewrite IH. simpl. destruct (is_whitespace c), (all_whitespace s1); done.
Qed.

Lemma all_whitespace_rev (s : string) :
  all_whitespace (String.rev s) = all_whitespace s.
Proof.
  unfold String.rev. rewrite all_whitespace_rev_app. simpl.
  apply andb_true_r.
Qed.

(** What [trimStart] leaves is empty or starts with a character that is not
    white space. *)
Lemma trimStart_head (s : string) :
  trimStart s = "" ∨ all_whitespace (trimStart s) = false.
Proof.
  induction s as [|c s IH]; simpl; [by left|].
  destruct (is_whitespace c) eqn:E; [exact IH|].
  right. simpl. by rewrite E.
Qed.

(** [trim] leaves nothing exactly of the strings made of white space. *)
Lemma trim_empty (s : string) : trim s = "" ↔ all_whitespace s = true.
Proof.
  unfold trim, trimEnd. split.
  - intros H. apply rev_app_empty in H as [H _].
    apply trimStart_empty in H. rewrite all_whitespace_rev in H.
    destruct (trimStart_head s) as [E|E]; [by apply trimStart_empty|congruence].
  - intros H. apply trimStart_empty in H. by rewrite H.
Qed.

Lemma trim_nonempty (s : string) : trim s ≠ "" → s ≠ "".
Proof. intros H ->. by apply H. Qed.

(** ** The handler, path by path *)

Section HandlerPaths.

Variable server : Request → fetch_outcome.

Lemma handleSearch_blank (w : World) :
  trim (searchQuery w) = "" →
  handleSearch server w
  = (Ok tt, set_defaultPrevented (S (defaultPrevented w)) w).
Proof.
  intros H.
  unfold handleSearch, handleSearch_begin, bind, gets, preventDefault, modify, ret.
  simpl. by rewrite H.
Qed.

Lemma handleSearch_submitting (w : World) :
  trim (searchQuery w) ≠ "" →
  handleSearch server w
  = search_guarded server (searchQuery w) (mode w) (useMesh w) (awaiting w).
Proof.
  intros H. apply truthy_string_true in H.
  unfold handleSearch, handleSearch_begin, bind, gets, preventDefault, modify,
    setIsLoading, ret.
  simpl. by rewrite H.
Qed.

Lemma search_guarded_rejected (q m : string) (u : bool) (w : World) :
  server (search_request q m u) = Rejected →
  search_guarded server q m u w
  = (Ok tt, recovered ("Network error", LogError NetworkError)
              (search_request q m u) w).
Proof.
  intros H.
  unfold search_guarded, try_catch_finally, try_finally, try_catch,
    search_try, fetch, bind, modify. simpl. by rewrite H.
Qed.

Lemma search_guarded_not_ok (q m : string) (u : bool) (w : World) resp :
  server (search_request q m u) = Resolved resp →
  ok resp = false →
  search_guarded server q m u w
  = (Ok tt, recovered ("Search failed", LogStatus (status resp))
              (search_request q m u) w).
Proof.
  intros H Hok.
  unfold search_guarded, try_catch_finally, try_finally, try_catch,
    search_try, fetch, bind, modify. simpl. rewrite H. simpl.
  by rewrite Hok.
Qed.

Lemma search_guarded_not_json (q m : string) (u : bool) (w : World) resp :
  server (search_request q m u) = Resolved resp →
  ok resp = true →
  json_body resp = None →
  search_guarded server q m u w
  = (Ok tt, recovered ("Network error", LogError SyntaxError)
              (search_request q m u) w).
Proof.
  intros H Hok Hj.
  unfold search_guarded, try_catch_finally, try_finally, try_catch,
    search_try, fetch, json, bind, modify. simpl. rewrite H. simpl.
  rewrite Hok. simpl. by rewrite Hj.
Qed.

Lemma search_guarded_not_mapped (q m : string) (u : bool) (w : World) resp data e :
  server (search_request q m u) = Resolved resp →
  ok resp = true →
  json_body resp = Some data →
  normalize data = Throw e →
  search_guarded server q m u w
  = (Ok tt, recovered ("Network error", LogError e) (search_request q m u) w).
Proof.
  intros H Hok Hj Hn.
  unfold search_guarded, try_catch_finally, try_finally, try_catch,
    search_try, fetch, json, lift, bind, modify. simpl. rewrite H. simpl.
  rewrite Hok. simpl. rewrite Hj. simpl. by rewrite Hn.
Qed.

Lemma search_guarded_mapped (q m : string) (u : bool) (w : World) resp data l :
  server (search_request q m u) = Resolved resp →
  ok resp = true →
  json_body resp = Some data →
  normalize data = Ok l →
  search_guarded server q m u w
  = (Ok tt, succeeded l (response_meta data) (search_request q m u) w).
Proof.
  intros H Hok Hj Hn.
  unfold search_guarded, try_catch_finally, try_finally, try_catch,
    search_try, fetch, json, lift, bind, modify. simpl. rewrite H. simpl.
  rewrite Hok. simpl. rewrite Hj. simpl. by rewrite Hn.
Qed.

(** Every run of the guarded block ends in one of the two shapes. *)
Lemma search_guarded_cases (q m : string) (u : bool) (w : World) :
  (∃ entry, search_guarded server q m u w
            = (Ok tt, recovered entry (search_request q m u) w))
  ∨ (∃ l meta, search_guarded server q m u w
               = (Ok tt, succeeded l meta (search_request q m u) w)).
Proof.
  destruct (server (search_request q m u)) as [|resp] eqn:H.
  { left. eexists. by apply search_guarded_rejected. }
  destruct (ok resp) eqn:Hok.
  2: { left. eexists. by eapply search_guarded_not_ok. }
  destruct (json_body resp) as [data|] eqn:Hj.
  2: { left. eexists. by eapply search_guarded_not_json. }
  destruct (normalize data) as [l|e] eqn:Hn.
  - right. eexists _, _. by eapply search_guarded_mapped.
  - left. eexists. by eapply search_guarded_not_mapped.
Qed.

Lemma search_guarded_failed (q m : string) (u : bool) (w : World) :
  failed (server (search_request q m u)) = true →
  ∃ entry, search_guarded server q m u w
           = (Ok tt, recovered entry (search_request q m u) w).
Proof.
  unfold failed. destruct (server (search_request q m u)) as [|resp] eqn:H.
  - intros _. eexists. by apply search_guarded_rejected.
  - intros Hok%negb_true_iff. eexists. by eapply search_guarded_not_ok.
Qed.

End HandlerPaths.

(** ** Normalisation *)

Lemma array_map_length {A} (f : value → nat → result A) (l : list value)
    (idx : nat) (ys : list A) :
  array_map f l idx = Ok ys → length ys = length l.
Proof.
  revert idx ys. induction l as [|x l IH]; simpl; intros idx ys H.
  - by inversion H.
  - destruct (f x idx) as [y|]; simpl in H; [|discriminate].
    destruct (array_map f l (S idx)) as [ys'|] eqn:E; simpl in H; [|discriminate].
    inversion H; subst. simpl. f_equal. by eapply IH.
Qed.

Lemma response_list_wrapped (o : gmap string value) (items : list value) :
  o !! "results" = Some (VArr items) →
  response_list (VObj o) = VArr items.
Proof.
  intros H. unfold response_list, js_or. simpl. by rewrite H.
Qed.

Lemma normalize_wrapped (o : gmap string value) (items : list value) :
  o !! "results" = Some (VArr items) →
  normalize (VObj o) = normalize (VArr items).
Proof.
  intros H. unfold normalize. by rewrite (response_list_wrapped o items H).
Qed.

(** The result list a 2xx JSON response leaves behind depends on the body
    through [normalize] only. *)
Lemma searchResults_of_json (st : nat) (d1 d2 : value) (w : World) :
  normalize d1 = normalize d2 →
  searchResults (exec (handleSearch (responds (Resolved (json_response st d1)))) w)
  = searchResults (exec (handleSearch (responds (Resolved (json_response st d2)))) w).
Proof.
  intros Hn. unfold exec.
  destruct (decide (trim (searchQuery w) = "")) as [Hq|Hq].
  { by rewrite !handleSearch_blank. }
  rewrite !handleSearch_submitting by done.
  destruct (ok (json_response st d1)) eqn:Hok.
  - destruct (normalize d1) as [l|e] eqn:H1; symmetry in Hn.
    + rewrite (search_guarded_mapped _ _ _ _ _ (json_response st d1) d1 l
                 eq_refl Hok eq_refl H1).
      by rewrite (search_guarded_mapped _ _ _ _ _ (json_response st d2) d2 l
                    eq_refl Hok eq_refl Hn).
    + rewrite (search_guarded_not_mapped _ _ _ _ _ (json_response st d1) d1 e
                 eq_refl Hok eq_refl H1).
      by rewrite (search_guarded_not_mapped _ _ _ _ _ (json_response st d2) d2 e
                    eq_refl Hok eq_refl Hn).
  - rewrite (search_guarded_not_ok _ _ _ _ _ (json_response st d1) eq_refl Hok).
    by rewrite (search_guarded_not_ok _ _ _ _ _ (json_response st d2) eq_refl Hok).
Qed.

(** C1: a bare array of items and an object whose [results] property holds
    the same items normalise alike: the two outcomes of [normalize] are
    equal, a list that comes out has one result per item, and the handler
    leaves the same result list behind for either body. *)
Theorem normalize_shape_invariant (items : list value) (o : gmap string value) :
  o !! "results" = Some (VArr items) →
  normalize (VObj o) = normalize (VArr items)
  ∧ (∀ l, normalize (VArr items) = Ok l →
          normalize (VObj o) = Ok l ∧ length l = length items)
  ∧ (∀ st w,
       searchResults
         (exec (handleSearch (responds (Resolved (json_response st (VObj o))))) w)
       = searchResults
           (exec (handleSearch (responds (Resolved (json_response st (VArr items))))) w)).
Proof.
  intros H. pose proof (normalize_wrapped o items H) as Hn.
  split; [exact Hn|]. split.
  - intros l Hl. split; [congruence|].
    unfold normalize, map_list in Hl. simpl in Hl.
    by eapply array_map_length.
  - intros st w. by apply searchResults_of_json.
Qed.

Lemma normalize_shape_invariant_witness :
  scenario_wrapped !! "results" = Some (VArr [scenario_item])
  ∧ normalize (VObj scenario_wrapped) = normalize (VArr [scenario_item]).
Proof.
  split; [reflexivity|].
  refine (proj1 (normalize_shape_invariant [scenario_item] scenario_wrapped _)).
  reflexivity.
Defined.

Lemma member_defined (item : value) (k : string) :
  nullish item = false → member item k = Ok (opt_member item k).
Proof. by destruct item. Qed.

(** On an item that is neither [null] nor [undefined] the callback returns,
    and every field is the [||] of the nested read with its default. *)
Lemma mapItem_defined (item : value) (idx : nat) :
  nullish item = false →
  mapItem item idx
  = Ok {| id := idx + 1;
          title := js_or (opt_member (opt_member item "record") "title") (VStr "");
          authors := js_or (opt_member (opt_member item "record") "authors") (VStr "");
          journal := js_or (opt_member (opt_member item "record") "journal") (VStr "");
          year := js_or (opt_member (opt_member item "record") "year") (VStr "");
          abstract := js_or (opt_member (opt_member item "record") "abstract") (VStr "");
          relevanceScore := js_or (opt_member item "score") (VNum 0);
          mesh_terms := js_or (opt_member (opt_member item "record") "mesh_terms") (VArr []);
          url_full_text :=
            js_or (opt_member (opt_member item "record") "url_full_text") VNull;
          url_pubmed :=
            js_or (opt_member (opt_member item "record") "url_pubmed") VNull |}.
Proof.
  intros H. unfold mapItem, record_field.
  rewrite !(member_defined item) by done. reflexivity.
Qed.

Lemma absent_field_undefined (item : value) (k : string) :
  has_field item k = false →
  opt_member (opt_member item "record") k = VUndefined.
Proof.
  destruct item as [| | | | | |o]; try done. simpl.
  destruct (o !! "record") as [[| | | | | |rec]|]; try done. simpl.
  by destruct (rec !! k).
Qed.

Lemma js_or_absent (item : value) (k : string) (d : value) :
  has_field item k = false →
  js_or (opt_member (opt_member item "record") k) d = d.
Proof. intros H. by rewrite absent_field_undefined. Qed.

Lemma js_or_defined (a d : value) :
  is_undefined d = false → is_undefined (js_or a d) = false.
Proof. intros H. unfold js_or. by destruct a as [| |[]| | | |]; simpl; try destruct (Qeq_bool _ _); try destruct (String.eqb _ _). Qed.

Lemma array_map_defined (items : list value) (idx : nat) :
  Forall (λ item, nullish item = false) items →
  ∃ l, array_map mapItem items idx = Ok l.
Proof.
  intros H. revert idx. induction H as [|item items Hi _ IH]; intros idx; simpl.
  - by eexists.
  - rewrite mapItem_defined by done. simpl.
    destruct (IH (S idx)) as [l ->]. simpl. by eexists.
Qed.

(** C2, as the code has it: on every response item other than [null] (and
    [undefined], which JSON cannot carry) the mapping returns a result whose
    identifier is the position plus one, none of whose fields is
    [undefined], and in which each field absent from the nested record has
    its default: the empty string for title, authors, journal, year and
    abstract, the empty list for mesh_terms, [null] for the two URLs; a list
    of such items normalises without an exception to one result per item;
    on the item [null] the unguarded read of [item.record] throws a
    TypeError; and the response of the scenario normalises to exactly one
    result, with relevanceScore 0.87, title "T", mesh_terms ["x"] and
    url_pubmed null. *)
Theorem mapItem_defaults :
  (∀ item idx,
     nullish item = false →
     ∃ r, mapItem item idx = Ok r
          ∧ id r = idx + 1
          ∧ defined_fields r = true
          ∧ (has_field item "title" = false → title r = VStr "")
          ∧ (has_field item "authors" = false → authors r = VStr "")
          ∧ (has_field item "journal" = false → journal r = VStr "")
          ∧ (has_field item "year" = false → year r = VStr "")
          ∧ (has_field item "abstract" = false → abstract r = VStr "")
          ∧ (has_field item "mesh_terms" = false → mesh_terms r = VArr [])
          ∧ (has_field item "url_full_text" = false → url_full_text r = VNull)
          ∧ (has_field item "url_pubmed" = false → url_pubmed r = VNull))
  ∧ (∀ items,
       Forall (λ item, nullish item = false) items →
       ∃ l, normalize (VArr items) = Ok l ∧ length l = length items)
  ∧ (∀ idx, mapItem VNull idx = Throw TypeError)
  ∧ (∃ r, normalize (VArr [scenario_item]) = Ok [r]
          ∧ relevanceScore r = VNum (87 # 100)
          ∧ title r = VStr "T"
          ∧ mesh_terms r = VArr [VStr "x"]
          ∧ url_pubmed r = VNull).
Proof.
  split; [|split; [|split]].
  - intros item idx H. eexists. split; [by apply mapItem_defined|].
    cbn [id title authors journal year abstract relevanceScore mesh_terms
           url_full_text url_pubmed].
    split; [done|]. split.
    { unfold defined_fields.
      cbn [id title authors journal year abstract relevanceScore mesh_terms
             url_full_text url_pubmed].
      by rewrite !js_or_defined. }
    repeat split; intros Hf; by apply js_or_absent.
  - intros items H. destruct (array_map_defined items 0 H) as [l Hl].
    exists l. split; [exact Hl|]. by eapply array_map_length.
  - done.
  - eexists. split; [reflexivity|]. done.
Qed.

Lemma mapItem_defaults_witness :
  nullish (VObj ∅) = false
  ∧ ∃ r, mapItem (VObj ∅) 0 = Ok r ∧ mesh_terms r = VArr [] ∧ url_pubmed r = VNull.
Proof.
  split; [reflexivity|].
  destruct (proj1 mapItem_defaults (VObj ∅) 0 eq_refl)
    as (r & Hr & _ & _ & _ & _ & _ & _ & _ & Hm & _ & Hu).
  exists r. split; [exact Hr|]. split; [apply Hm|apply Hu]; reflexivity.
Defined.

(** The item [null] makes the callback throw, so the array [[null]] does
    not normalise; the handler catches the exception and shows no result. *)
Lemma null_item_throws :
  mapItem VNull 0 = Throw TypeError
  ∧ normalize (VArr [VNull]) = Throw TypeError
  ∧ searchResults
      (exec (handleSearch (responds (Resolved (json_response 200 (VArr [VNull])))))
         typed_example) = [].
Proof. repeat split; reflexivity. Qed.

(** ** The submit handler *)

(** C3: when a query that is not blank is submitted and the request ends in
    a status outside 200-299 or in a network failure, the handler returns
    normally, the result list is empty, the typed query is untouched, and
    the "no results" panel is shown quoting that query. *)
Theorem failed_search_recovers (server : Request → fetch_outcome) (w : World) :
  trim (searchQuery w) ≠ "" →
  failed (server (search_request (searchQuery w) (mode w) (useMesh w))) = true →
  completion (handleSearch server) w = Ok tt
  ∧ searchResults (exec (handleSearch server) w) = []
  ∧ searchQuery (exec (handleSearch server) w) = searchQuery w
  ∧ no_results_panel (exec (handleSearch server) w) = Some (searchQuery w).
Proof.
  intros Hq Hf. unfold completion, exec.
  rewrite handleSearch_submitting by done.
  destruct (search_guarded_failed server _ _ _ (awaiting w) Hf) as [entry ->].
  repeat split.
  unfold no_results_panel. simpl.
  apply trim_nonempty, truthy_string_true in Hq. by rewrite Hq.
Qed.

Lemma failed_search_recovers_witness :
  trim (searchQuery typed_example) ≠ ""
  ∧ failed (responds (Resolved {| status := 500; json_body := None |})
              (search_request (searchQuery typed_example) (mode typed_example)
                 (useMesh typed_example))) = true
  ∧ no_results_panel
      (exec (handleSearch
               (responds (Resolved {| status := 500; json_body := None |})))
         typed_example)
    = Some "cancer immunotherapy".
Proof.
  split; [vm_compute; discriminate|]. split; [reflexivity|].
  apply (failed_search_recovers
           (responds (Resolved {| status := 500; json_body := None |}))
           typed_example).
  - vm_compute; discriminate.
  - reflexivity.
Defined.






(** C5: submitting a query that is empty or made of white space only sends
    no request and leaves the result list, the loading flag, the stored
    metadata and every other piece of the component state as they were;
    the handler returns normally, having only called [preventDefault]. *)
Theorem blank_query_noop (server : Request → fetch_outcome) (w : World) :
  all_whitespace (searchQuery w) = true →
  completion (handleSearch server) w = Ok tt
  ∧ exec (handleSearch server) w
    = set_defaultPrevented (S (defaultPrevented w)) w
  ∧ requests (exec (handleSearch server) w) = requests w
  ∧ searchResults (exec (handleSearch server) w) = searchResults w
  ∧ isLoading (exec (handleSearch server) w) = isLoading w
  ∧ searchMeta (exec (handleSearch server) w) = searchMeta w
  ∧ searchQuery (exec (handleSearch server) w) = searchQuery w
  ∧ expandedIds (exec (handleSearch server) w) = expandedIds w
  ∧ console (exec (handleSearch server) w) = console w.
Proof.
  intros H%trim_empty. unfold completion, exec.
  by rewrite handleSearch_blank.
Qed.

Lemma blank_query_noop_witness :
  all_whitespace (searchQuery (set_searchQuery "  " initial)) = true
  ∧ requests
      (exec (handleSearch (responds Rejected)) (set_searchQuery "  " initial))
    = [].
Proof.
  split; [reflexivity|].
  apply (blank_query_noop (responds Rejected) (set_searchQuery "  " initial)).
  reflexivity.
Defined.

Lemma requests_after_submit (server : Request → fetch_outcome) (w : World) :
  trim (searchQuery w) ≠ "" →
  requests (exec (handleSearch server) w)
  = (requests w ++ [search_request (searchQuery w) (mode w) (useMesh w)])%list.
Proof.
  intros Hq. unfold exec. rewrite handleSearch_submitting by done.
  by destruct (search_guarded_cases server (searchQuery w) (mode w)
                 (useMesh w) (awaiting w)) as [[? ->]|(? & ? & ->)].
Qed.

(** C6: submitting a query that is not blank adds exactly one request to
    those sent so far, whatever the service then does: a POST to the search
    endpoint whose body holds the five properties query, mode, use_mesh,
    max_results and retmax, the first three with the current values of the
    form and the last two fixed at 25 and 200. With the defaults of the
    form and the query "cancer immunotherapy", the one request sent has the
    body {query: "cancer immunotherapy", mode: "semantic", use_mesh: true,
    max_results: 25, retmax: 200}. *)
Theorem submit_sends_one_post :
  (∀ (server : Request → fetch_outcome) (w : World),
     trim (searchQuery w) ≠ "" →
     ∃ b : gmap string value,
       requests (exec (handleSearch server) w)
       = (requests w
          ++ [{| url := "http://localhost:8000/search";
                 method := "POST";
                 headers := [("Content-Type", "application/json")];
                 body := VObj b |}])%list
       ∧ dom b = list_to_set ["query"; "mode"; "use_mesh"; "max_results"; "retmax"]
       ∧ b !! "query" = Some (VStr (searchQuery w))
       ∧ b !! "mode" = Some (VStr (mode w))
       ∧ b !! "use_mesh" = Some (VBool (useMesh w))
       ∧ b !! "max_results" = Some (VNum 25)
       ∧ b !! "retmax" = Some (VNum 200))
  ∧ (∀ server : Request → fetch_outcome,
       requests (exec (handleSearch server) typed_example)
       = [{| url := "http://localhost:8000/search";
             method := "POST";
             headers := [("Content-Type", "application/json")];
             body := VObj (list_to_map
                       [("query", VStr "cancer immunotherapy");
                        ("mode", VStr "semantic");
                        ("use_mesh", VBool true);
                        ("max_results", VNum 25);
                        ("retmax", VNum 200)]) |}]).
Proof.
  split.
  - intros server w Hq. eexists. split; [by apply requests_after_submit|].
    repeat split; reflexivity.
  - intros server. rewrite requests_after_submit; [reflexivity|].
    vm_compute; discriminate.
Qed.

Lemma submit_sends_one_post_witness :
  trim (searchQuery typed_example) ≠ ""
  ∧ length (requests (exec (handleSearch (responds Rejected)) typed_example)) = 1.
Proof.
  split; [vm_compute; discriminate|].
  destruct (proj1 submit_sends_one_post (responds Rejected) typed_example)
    as (b & Hb & _).
  - vm_compute; discriminate.
  - rewrite Hb. reflexivity.
Defined.

(** ** The panels *)

Lemma results_panel_none (w : World) :
  results_panel w = None ↔ searchResults w = [].
Proof.
  unfold results_panel. destruct (searchResults w); simpl; split; done.
Qed.

(** C7, as the code has it: while the loading flag is set the loading panel
    is rendered and the "no results" panel is not; the list of result cards
    does not look at the flag and is rendered exactly when the result list
    is not empty. *)
Theorem loading_panels (w : World) :
  isLoading w = true →
  loading_panel w = true
  ∧ no_results_panel w = None
  ∧ (results_panel w = None ↔ searchResults w = [])
  ∧ (∀ b, results_panel (set_isLoading b w) = results_panel w).
Proof.
  intros H. split; [exact H|]. split.
  - unfold no_results_panel. rewrite H. simpl. by rewrite andb_false_r.
  - split; [apply results_panel_none|done].
Qed.

Lemma loading_panels_witness :
  isLoading second_submit = true
  ∧ loading_panel second_submit = true
  ∧ no_results_panel second_submit = None.
Proof.
  split; [reflexivity|].
  destruct (loading_panels second_submit) as (H1 & H2 & _); [reflexivity|].
  exact (conj H1 H2).
Defined.

(** While a second submit is in flight after a search that found a paper,
    the loading flag is set and the card list of the first search is still
    rendered, next to the loading panel. *)
Lemma loading_keeps_results :
  (∀ server,
     handleSearch server after_success
     = search_guarded server "cancer immunotherapy" "semantic" true second_submit)
  ∧ isLoading second_submit = true
  ∧ loading_panel second_submit = true
  ∧ results_panel second_submit ≠ None.
Proof.
  split.
  { intros server. apply (handleSearch_submitting server after_success).
    vm_compute; discriminate. }
  split; [reflexivity|]. split; [reflexivity|].
  rewrite results_panel_none. vm_compute; discriminate.
Qed.

(** C8, as the code has it: the "no results" panel is rendered exactly when
    the result list is empty, the loading flag is clear and the text in the
    query input is not empty, submitted or not, and it quotes that text;
    when the result list and the query text are both empty neither the
    panel nor the card list is rendered; the initial page renders none of
    the three panels. *)
Theorem no_results_panel_shown (w : World) :
  (is_Some (no_results_panel w)
   ↔ searchResults w = [] ∧ isLoading w = false ∧ searchQuery w ≠ "")
  ∧ (∀ q, no_results_panel w = Some q → q = searchQuery w)
  ∧ (searchResults w = [] → searchQuery w = "" →
     no_results_panel w = None ∧ results_panel w = None)
  ∧ (no_results_panel initial = None
     ∧ results_panel initial = None
     ∧ loading_panel initial = false).
Proof.
  split; [|split; [|split]].
  - unfold no_results_panel.
    destruct (searchResults w) as [|r l]; simpl.
    2: { split; [intros [? ?]; done|intros (? & _); done]. }
    destruct (isLoading w); simpl.
    { split; [intros [? ?]; done|intros (_ & ? & _); done]. }
    destruct (truthy_string (searchQuery w)) eqn:E.
    + apply truthy_string_true in E. split; [done|by eexists].
    + apply truthy_string_false in E. split; [intros [? ?]; done|].
      intros (_ & _ & ?); done.
  - unfold no_results_panel. intros q.
    destruct (_ && _); [by intros [= <-]|done].
  - intros Hr Hq. split; [|by apply results_panel_none].
    unfold no_results_panel. rewrite Hq. simpl. by rewrite andb_false_r.
  - done.
Qed.

Lemma no_results_panel_shown_witness :
  searchResults initial = []
  ∧ searchQuery initial = ""
  ∧ no_results_panel initial = None.
Proof.
  split; [reflexivity|]. split; [reflexivity|].
  apply (no_results_panel_shown initial); reflexivity.
Defined.

(** Typing one character into the query input of the initial page, without
    submitting it, brings up the "no results" panel: the result list is
    empty, nothing is loading, no request was ever sent. *)
Lemma typed_query_shows_no_results :
  searchResults (run [ChangeQuery "a"] initial) = []
  ∧ isLoading (run [ChangeQuery "a"] initial) = false
  ∧ ¬ submitted (run [ChangeQuery "a"] initial)
  ∧ no_results_panel (run [ChangeQuery "a"] initial) = Some "a".
Proof.
  repeat split. intros H. by apply H.
Qed.

(** ** The expand toggle *)

Lemma elem_of_toggle (rid x : nat) (s : gset nat) :
  x ∈ toggle rid s ↔ (x ≠ rid ∧ x ∈ s) ∨ (x = rid ∧ x ∉ s).
Proof.
  unfold toggle. case_decide as H.
  - rewrite elem_of_difference, elem_of_singleton.
    destruct (decide (x = rid)) as [E|E]; [rewrite E|]; intuition congruence.
  - rewrite elem_of_union, elem_of_singleton.
    destruct (decide (x = rid)) as [E|E]; [rewrite E|]; intuition congruence.
Qed.

Lemma toggle_toggle (rid : nat) (s : gset nat) : toggle rid (toggle rid s) = s.
Proof.
  apply set_eq. intros x. rewrite !elem_of_toggle.
  destruct (decide (x = rid)) as [E|E]; destruct (decide (x ∈ s));
    intuition congruence.
Qed.

(** C9: toggling an identifier twice gives back the expanded set, for every
    identifier and every set, and with it the whole world; one toggle flips
    the membership of that identifier and of no other; a toggle leaves the
    result list as it is, and the text a card shows is the abstract of its
    result whether the card is expanded or not. *)
Theorem toggle_involutive (rid : nat) (s : gset nat) (w : World) :
  toggle rid (toggle rid s) = s
  ∧ (rid ∈ toggle rid s ↔ rid ∉ s)
  ∧ (∀ x, x ≠ rid → x ∈ toggle rid s ↔ x ∈ s)
  ∧ expandedIds (onToggle rid (onToggle rid w)) = expandedIds w
  ∧ onToggle rid (onToggle rid w) = w
  ∧ searchResults (onToggle rid w) = searchResults w
  ∧ map abstract (searchResults (onToggle rid w)) = map abstract (searchResults w)
  ∧ (∀ expanded r,
       card_result (render_card expanded r) = r
       ∧ card_text (render_card expanded r) = abstract r).
Proof.
  split; [apply toggle_toggle|]. split.
  { rewrite elem_of_toggle. intuition congruence. }
  split.
  { intros x Hx. rewrite elem_of_toggle. intuition congruence. }
  split.
  { unfold onToggle. simpl. apply toggle_toggle. }
  split.
  { destruct w. unfold onToggle, set_expandedIds. simpl. f_equal.
    apply toggle_toggle. }
  done.
Qed.

(** ** The metadata side channel *)

Lemma step_keeps_meta (e : event) (w : World) :
  failing_event e → searchMeta (step w e) = searchMeta w.
Proof.
  destruct e as [s|f|m|b|server|rid]; simpl; try done.
  intros Hf. unfold exec.
  destruct (decide (trim (searchQuery w) = "")) as [Hq|Hq].
  { by rewrite handleSearch_blank. }
  rewrite handleSearch_submitting by done.
  by destruct (search_guarded_failed server (searchQuery w) (mode w) (useMesh w)
                 (awaiting w) (Hf _)) as [? ->].
Qed.

Lemma run_keeps_meta (es : list event) (w : World) :
  Forall failing_event es → searchMeta (run es w) = searchMeta w.
Proof.
  intros H. revert w. induction H as [|e es He _ IH]; intros w; [done|].
  simpl. rewrite IH. by apply step_keeps_meta.
Qed.

(** C10: a search that fails (a status outside 200-299, or a rejected
    request) clears the result list and the loading flag and leaves the rest
    of the component state and the stored metadata as they were; hence the
    metadata of the last successful search is still there after any number
    of failed searches, whatever else the user does in between. *)
Theorem failed_search_keeps_meta :
  (∀ (server : Request → fetch_outcome) (w : World),
     trim (searchQuery w) ≠ "" →
     failed (server (search_request (searchQuery w) (mode w) (useMesh w))) = true →
     searchMeta (exec (handleSearch server) w) = searchMeta w
     ∧ searchResults (exec (handleSearch server) w) = []
     ∧ isLoading (exec (handleSearch server) w) = false
     ∧ searchQuery (exec (handleSearch server) w) = searchQuery w
     ∧ mode (exec (handleSearch server) w) = mode w
     ∧ useMesh (exec (handleSearch server) w) = useMesh w
     ∧ expandedIds (exec (handleSearch server) w) = expandedIds w
     ∧ filters (exec (handleSearch server) w) = filters w)
  ∧ (∀ (es : list event) (w : World),
       Forall failing_event es → searchMeta (run es w) = searchMeta w).
Proof.
  split; [|apply run_keeps_meta].
  intros server w Hq Hf. unfold exec. rewrite handleSearch_submitting by done.
  by destruct (search_guarded_failed server _ _ _ (awaiting w) Hf) as [? ->].
Qed.

Lemma failed_search_keeps_meta_witness :
  searchMeta
    (run [Submit (responds (Resolved {| status := 500; json_body := None |}));
          Toggle 1;
          Submit (responds Rejected)]
       after_success)
  = Some {| total_results := VNum 1; results_range := VStr "1-1" |}.
Proof.
  rewrite (proj2 failed_search_keeps_meta).
  - reflexivity.
  - repeat constructor; intros req; reflexivity.
Defined.

(** * Further properties of the code *)

(** ** What [normalize] maps, and when it throws *)

Lemma normalize_items (data : value) :
  normalize data
  = match response_items data with
    | Some items => array_map mapItem items 0
    | None => Throw TypeError
    end.
Proof.
  unfold normalize, response_list, map_list, js_or.
  destruct data as [| |b|q|s|l|o]; simpl; try done.
  destruct (o !! "results") as [[| |[]|q|s|l|o']|]; simpl; try done.
  - destruct (Qeq_bool q 0) eqn:E; simpl; by rewrite ?E.
  - destruct (String.eqb s "") eqn:E; simpl; by rewrite ?E.
Qed.

Lemma mapItem_nullish (item : value) (idx : nat) :
  nullish item = true → mapItem item idx = Throw TypeError.
Proof. by destruct item. Qed.

Lemma mapItem_cases (item : value) (idx : nat) :
  (nullish item = true ∧ mapItem item idx = Throw TypeError)
  ∨ (nullish item = false ∧ ∃ r, mapItem item idx = Ok r ∧ id r = idx + 1).
Proof.
  destruct (nullish item) eqn:H.
  - left. split; [done|]. by apply mapItem_nullish.
  - right. split; [done|]. eexists. split; [by apply mapItem_defined|done].
Qed.

Lemma array_map_throws (items : list value) (idx : nat) :
  existsb nullish items = true → array_map mapItem items idx = Throw TypeError.
Proof.
  revert idx. induction items as [|item items IH]; intros idx; simpl; [done|].
  destruct (mapItem_cases item idx) as [[Hn ->]|[Hn (r & -> & _)]]; [done|].
  rewrite Hn. simpl. intros H. by rewrite IH.
Qed.

Lemma array_map_returns (items : list value) (idx : nat) :
  existsb nullish items = false → ∃ l, array_map mapItem items idx = Ok l.
Proof.
  intros H. apply array_map_defined. apply Forall_forall. intros item Hi.
  destruct (nullish item) eqn:E; [|done].
  assert (existsb nullish items = true) as Hex; [|congruence].
  apply existsb_exists. exists item. split; [|done]. by apply list_elem_of_In.
Qed.

Lemma array_map_lookup {A} (f : value → nat → result A) (items : list value)
    (idx : nat) (l : list A) :
  array_map f items idx = Ok l →
  ∀ i item, items !! i = Some item → ∃ r, l !! i = Some r ∧ f item (idx + i) = Ok r.
Proof.
  revert idx l. induction items as [|x items IH]; simpl; intros idx l H i item Hi.
  { by rewrite lookup_nil in Hi. }
  destruct (f x idx) as [y|] eqn:Hy; simpl in H; [|discriminate].
  destruct (array_map f items (S idx)) as [ys|] eqn:E; simpl in H; [|discriminate].
  injection H as <-. destruct i as [|i]; simpl in *.
  - injection Hi as <-. exists y. by rewrite Nat.add_0_r.
  - destruct (IH _ _ E i item Hi) as (r & Hr & Hf). exists r. split; [done|].
    by replace (idx + S i) with (S idx + i) by lia.
Qed.

Lemma array_map_ids (items : list value) (idx : nat) (l : list SearchResult) :
  array_map mapItem items idx = Ok l → map id l = seq (idx + 1) (length l).
Proof.
  revert idx l. induction items as [|x items IH]; simpl; intros idx l H.
  { by injection H as <-. }
  destruct (mapItem_cases x idx) as [[_ Hx]|[_ (r & Hx & Hid)]];
    rewrite Hx in H; simpl in H; [discriminate|].
  destruct (array_map mapItem items (S idx)) as [ys|] eqn:E; simpl in H;
    [|discriminate].
  injection H as <-. simpl. rewrite Hid. f_equal.
  rewrite (IH _ _ E). by replace (S idx + 1) with (S (idx + 1)) by lia.
Qed.

(** X1: the results of a normalised response carry the identifiers 1, 2,
    ..., n in this order: the result at position i has identifier i + 1,
    and no two results share an identifier. *)
Theorem normalize_ids (data : value) (l : list SearchResult) :
  normalize data = Ok l →
  map id l = seq 1 (length l)
  ∧ (∀ i r, l !! i = Some r → id r = i + 1)
  ∧ NoDup (map id l).
Proof.
  rewrite normalize_items. destruct (response_items data) as [items|]; [|done].
  intros H%array_map_ids. simpl in H. split; [done|]. split.
  - intros i r Hr.
    assert (map id l !! i = Some (id r)) as Hi by by rewrite list_lookup_fmap, Hr.
    rewrite H in Hi. apply lookup_seq in Hi as [-> _]. lia.
  - rewrite H. apply NoDup_seq.
Qed.

Lemma normalize_ids_witness :
  normalize (VArr [scenario_item; VObj ∅]) = Ok
    [{| id := 1; title := VStr "T"; authors := VStr "A"; journal := VStr "J";
        year := VNum 2023; abstract := VStr "..."; relevanceScore := VNum (87 # 100);
        mesh_terms := VArr [VStr "x"]; url_full_text := VNull; url_pubmed := VNull |};
     {| id := 2; title := VStr ""; authors := VStr ""; journal := VStr "";
        year := VStr ""; abstract := VStr ""; relevanceScore := VNum 0;
        mesh_terms := VArr []; url_full_text := VNull; url_pubmed := VNull |}]
  ∧ map id
      [{| id := 1; title := VStr "T"; authors := VStr "A"; journal := VStr "J";
          year := VNum 2023; abstract := VStr "..."; relevanceScore := VNum (87 # 100);
          mesh_terms := VArr [VStr "x"]; url_full_text := VNull; url_pubmed := VNull |};
       {| id := 2; title := VStr ""; authors := VStr ""; journal := VStr "";
          year := VStr ""; abstract := VStr ""; relevanceScore := VNum 0;
          mesh_terms := VArr []; url_full_text := VNull; url_pubmed := VNull |}]
    = [1; 2].
Proof.
  split; [reflexivity|].
  apply (normalize_ids (VArr [scenario_item; VObj ∅])). reflexivity.
Defined.

(** X2: the results keep the order of the response: a normalised list has
    one result per item, the result at position i is what the callback
    makes of the item at position i, and the card list shows the stored
    results in that same order. *)
Theorem normalize_positional (data : value) (l : list SearchResult) :
  normalize data = Ok l →
  ∃ items,
    response_items data = Some items
    ∧ length l = length items
    ∧ (∀ i item, items !! i = Some item →
                 ∃ r, l !! i = Some r ∧ mapItem item i = Ok r)
    ∧ (∀ w p, searchResults w = l → results_panel w = Some p →
              map card_result (panel_cards p) = l).
Proof.
  rewrite normalize_items. destruct (response_items data) as [items|]; [|done].
  intros H. exists items. split; [done|]. split; [by eapply array_map_length|].
  split.
  - intros i item Hi. by apply (array_map_lookup _ _ _ _ H).
  - intros w p Hw. unfold results_panel. rewrite Hw.
    destruct (0 <? length l)%nat; [|done]. intros [= <-]. simpl.
    rewrite map_map. simpl. apply map_id.
Qed.

Lemma normalize_positional_witness :
  ∃ items,
    response_items (VObj scenario_wrapped) = Some items
    ∧ length [{| id := 1; title := VStr "T"; authors := VStr "A";
                 journal := VStr "J"; year := VNum 2023; abstract := VStr "...";
                 relevanceScore := VNum (87 # 100); mesh_terms := VArr [VStr "x"];
                 url_full_text := VNull; url_pubmed := VNull |}]
      = length items.
Proof.
  destruct (normalize_positional (VObj scenario_wrapped)
              [{| id := 1; title := VStr "T"; authors := VStr "A";
                  journal := VStr "J"; year := VNum 2023; abstract := VStr "...";
                  relevanceScore := VNum (87 # 100); mesh_terms := VArr [VStr "x"];
                  url_full_text := VNull; url_pubmed := VNull |}])
    as (items & H1 & H2 & _); [reflexivity|].
  exists items. exact (conj H1 H2).
Defined.

Lemma normalize_throws_TypeError (data : value) (e : exn) :
  normalize data = Throw e → e = TypeError.
Proof.
  rewrite normalize_items. destruct (response_items data) as [items|]; [|congruence].
  destruct (existsb nullish items) eqn:E.
  - rewrite array_map_throws by done. congruence.
  - by destruct (array_map_returns items 0 E) as [l ->].
Qed.

(** X3: [normalize] throws exactly when [.map] cannot be called (the body
    is no array and its [results] is truthy without being an array) or when
    one of the items is [null] or [undefined]; the exception is always a
    TypeError, and a single such item anywhere in the list loses the whole
    response. *)
Theorem normalize_throws_iff (data : value) :
  (normalize data = Throw TypeError
   ↔ response_items data = None
     ∨ ∃ items, response_items data = Some items ∧ existsb nullish items = true)
  ∧ (∀ e, normalize data = Throw e → e = TypeError)
  ∧ (∀ before after,
       normalize (VArr (before ++ VNull :: after)) = Throw TypeError).
Proof.
  rewrite normalize_items. split; [|split].
  - destruct (response_items data) as [items|]; [|split; [by left|done]].
    split.
    + intros H. right. exists items. split; [done|].
      destruct (existsb nullish items) eqn:E; [done|].
      destruct (array_map_returns items 0 E) as [l Hl]. congruence.
    + intros [?|(items' & [= <-] & H)]; [done|]. by apply array_map_throws.
  - intros e. rewrite <- normalize_items. apply normalize_throws_TypeError.
  - intros before after. rewrite normalize_items. simpl.
    apply array_map_throws. rewrite existsb_app. simpl. apply orb_true_r.
Qed.

(** X4: [normalize] returns the empty list exactly for the bodies that
    carry no item: the empty array, an object whose [results] is the empty
    array, is missing or is falsy, and every body that is neither an array
    nor an object ([null], a number, a string, a boolean). *)
Theorem normalize_empty_iff (data : value) :
  (normalize data = Ok [] ↔ response_items data = Some [])
  ∧ (isArray data = false → truthy (opt_member data "results") = false →
     normalize data = Ok []).
Proof.
  split.
  - rewrite normalize_items. destruct (response_items data) as [[|x items]|].
    + done.
    + split; [|done]. intros H. apply array_map_length in H. done.
    + done.
  - intros Ha Ht. unfold normalize, response_list, map_list, js_or.
    by rewrite Ha, Ht.
Qed.

Lemma normalize_empty_iff_witness :
  isArray VNull = false
  ∧ truthy (opt_member VNull "results") = false
  ∧ normalize VNull = Ok [].
Proof.
  split; [reflexivity|]. split; [reflexivity|].
  apply (proj2 (normalize_empty_iff VNull)); reflexivity.
Defined.

(** ** The handler on a 2xx response *)

Section Served.

Variable server : Request → fetch_outcome.
Variable w : World.
Variable resp : Response.
Hypothesis query_not_blank : trim (searchQuery w) ≠ "".
Hypothesis served : server (request_of w) = Resolved resp.
Hypothesis status_ok : ok resp = true.

Lemma served_mapped (data : value) (l : list SearchResult) :
  json_body resp = Some data →
  normalize data = Ok l →
  handleSearch server w
  = (Ok tt, succeeded l (response_meta data) (request_of w) (awaiting w)).
Proof.
  intros Hj Hn. rewrite handleSearch_submitting by done.
  by eapply search_guarded_mapped.
Qed.

Lemma served_thrown (e : exn) :
  body_results resp = Throw e →
  handleSearch server w
  = (Ok tt, recovered ("Network error", LogError e) (request_of w) (awaiting w)).
Proof.
  unfold body_results. intros H. rewrite handleSearch_submitting by done.
  destruct (json_body resp) as [data|] eqn:Hj.
  - by eapply search_guarded_not_mapped.
  - injection H as <-. by eapply search_guarded_not_json.
Qed.

End Served.

(** X5: a 2xx response whose body carries no item (an empty array, an
    object without [results], [null], ...) goes down the success path: the
    handler returns normally and logs nothing, stores the empty list and
    the metadata of this body, clears the loading flag, and the page shows
    the "no results" panel quoting the query, not the card list. *)
Theorem empty_body_shows_no_results (server : Request → fetch_outcome)
    (w : World) (resp : Response) (data : value) :
  trim (searchQuery w) ≠ "" →
  server (request_of w) = Resolved resp →
  ok resp = true →
  json_body resp = Some data →
  response_items data = Some [] →
  completion (handleSearch server) w = Ok tt
  ∧ searchResults (exec (handleSearch server) w) = []
  ∧ console (exec (handleSearch server) w) = console w
  ∧ searchMeta (exec (handleSearch server) w) = Some (response_meta data)
  ∧ isLoading (exec (handleSearch server) w) = false
  ∧ results_panel (exec (handleSearch server) w) = None
  ∧ no_results_panel (exec (handleSearch server) w) = Some (searchQuery w).
Proof.
  intros Hq Hs Hok Hj Hi.
  assert (normalize data = Ok []) as Hn by by rewrite normalize_items, Hi.
  unfold completion, exec.
  rewrite (served_mapped server w resp Hq Hs Hok data [] Hj Hn).
  repeat split. unfold no_results_panel. simpl.
  apply trim_nonempty, truthy_string_true in Hq. by rewrite Hq.
Qed.

Lemma empty_body_shows_no_results_witness :
  no_results_panel
    (exec (handleSearch (responds (Resolved (json_response 200 (VObj ∅)))))
       typed_example)
  = Some "cancer immunotherapy".
Proof.
  apply (empty_body_shows_no_results
           (responds (Resolved (json_response 200 (VObj ∅)))) typed_example
           (json_response 200 (VObj ∅)) (VObj ∅)).
  - vm_compute; discriminate.
  - reflexivity.
  - reflexivity.
  - reflexivity.
  - reflexivity.
Defined.

(** X6: a 2xx response whose body does not parse as JSON, or does not map,
    ends in the [catch] block: the handler returns normally, logs exactly
    one entry, under the label "Network error" and carrying the SyntaxError
    or TypeError, clears the result list and the loading flag, and leaves
    the stored metadata as it was. *)
Theorem bad_body_logged_as_network_error (server : Request → fetch_outcome)
    (w : World) (resp : Response) (e : exn) :
  trim (searchQuery w) ≠ "" →
  server (request_of w) = Resolved resp →
  ok resp = true →
  body_results resp = Throw e →
  completion (handleSearch server) w = Ok tt
  ∧ (e = SyntaxError ∨ e = TypeError)
  ∧ console (exec (handleSearch server) w)
    = (console w ++ [("Network error", LogError e)])%list
  ∧ searchResults (exec (handleSearch server) w) = []
  ∧ searchMeta (exec (handleSearch server) w) = searchMeta w
  ∧ isLoading (exec (handleSearch server) w) = false.
Proof.
  intros Hq Hs Hok He. unfold completion, exec.
  rewrite (served_thrown server w resp Hq Hs Hok e He).
  split; [done|]. split; [|done].
  unfold body_results in He. destruct (json_body resp) as [data|].
  - right. by apply (normalize_throws_TypeError data).
  - left. congruence.
Qed.

Lemma bad_body_logged_as_network_error_witness :
  console
    (exec (handleSearch
             (responds (Resolved (json_response 200 (VArr [scenario_item; VNull])))))
       typed_example)
  = [("Network error", LogError TypeError)].
Proof.
  apply (bad_body_logged_as_network_error
           (responds (Resolved (json_response 200 (VArr [scenario_item; VNull]))))
           typed_example
           (json_response 200 (VArr [scenario_item; VNull])) TypeError).
  - vm_compute; discriminate.
  - reflexivity.
  - reflexivity.
  - reflexivity.
Defined.

(** X7: after a successful search the header counts what this response
    says: its [total_results] when that is neither missing nor [null]
    (a 0 is shown as 0), the number of results otherwise; the range is
    shown only when [results_range] is truthy. A bare array carries
    neither, so the count is the number of results and no range is shown,
    whatever an earlier search had stored. *)
Theorem header_after_success (server : Request → fetch_outcome)
    (w : World) (resp : Response) (data : value) (l : list SearchResult) :
  trim (searchQuery w) ≠ "" →
  server (request_of w) = Resolved resp →
  ok resp = true →
  json_body resp = Some data →
  normalize data = Ok l →
  searchResults (exec (handleSearch server) w) = l
  ∧ papers_found (exec (handleSearch server) w)
    = js_coalesce (opt_member data "total_results")
        (VNum (inject_Z (Z.of_nat (length l))))
  ∧ showing_range (exec (handleSearch server) w)
    = (if truthy (opt_member data "results_range")
       then Some (opt_member data "results_range") else None)
  ∧ (isArray data = true →
     papers_found (exec (handleSearch server) w)
     = VNum (inject_Z (Z.of_nat (length l)))
     ∧ showing_range (exec (handleSearch server) w) = None).
Proof.
  intros Hq Hs Hok Hj Hn. unfold exec.
  rewrite (served_mapped server w resp Hq Hs Hok data l Hj Hn).
  split; [done|]. split; [done|]. split; [done|].
  intros Ha. by destruct data.
Qed.

Lemma header_after_success_witness :
  papers_found
    (exec (handleSearch (responds (Resolved (json_response 200 (VArr [VObj ∅])))))
       after_success)
  = VNum 1.
Proof.
  apply (header_after_success
           (responds (Resolved (json_response 200 (VArr [VObj ∅]))))
           after_success (json_response 200 (VArr [VObj ∅])) (VArr [VObj ∅])
           [{| id := 1; title := VStr ""; authors := VStr ""; journal := VStr "";
               year := VStr ""; abstract := VStr ""; relevanceScore := VNum 0;
               mesh_terms := VArr []; url_full_text := VNull;
               url_pubmed := VNull |}]);
    try reflexivity.
  vm_compute; discriminate.
Defined.

(** ** What a submit depends on, and what it leaves alone *)

Lemma handleSearch_results (server : Request → fetch_outcome) (w : World) :
  trim (searchQuery w) ≠ "" →
  searchResults (exec (handleSearch server) w)
  = outcome_results (server (request_of w)).
Proof.
  intros Hq. unfold exec, outcome_results.
  destruct (server (request_of w)) as [|resp] eqn:Hs.
  { rewrite handleSearch_submitting by done.
    by rewrite (search_guarded_rejected server _ _ _ _ Hs). }
  destruct (ok resp) eqn:Hok.
  2: { rewrite handleSearch_submitting by done.
       by rewrite (search_guarded_not_ok server _ _ _ _ resp Hs Hok). }
  destruct (body_results resp) as [l|e] eqn:Hb.
  - unfold body_results in Hb. destruct (json_body resp) as [data|] eqn:Hj; [|done].
    by rewrite (served_mapped server w resp Hq Hs Hok data l Hj Hb).
  - by rewrite (served_thrown server w resp Hq Hs Hok e Hb).
Qed.

(** The handler never writes the form: query, mode, MeSH switch, expanded
    set and filters come out as they went in, on every path. *)
Lemma handleSearch_frame (server : Request → fetch_outcome) (w : World) :
  searchQuery (exec (handleSearch server) w) = searchQuery w
  ∧ mode (exec (handleSearch server) w) = mode w
  ∧ useMesh (exec (handleSearch server) w) = useMesh w
  ∧ expandedIds (exec (handleSearch server) w) = expandedIds w
  ∧ filters (exec (handleSearch server) w) = filters w.
Proof.
  unfold exec. destruct (decide (trim (searchQuery w) = "")) as [Hq|Hq].
  { by rewrite handleSearch_blank. }
  rewrite handleSearch_submitting by done.
  by destruct (search_guarded_cases server (searchQuery w) (mode w) (useMesh w)
                 (awaiting w)) as [[? ->]|(? & ? & ->)].
Qed.

(** X8: a search replaces the result list, it never adds to it: once the
    query passes the guard, the list the handler leaves depends on how the
    request ended and on nothing the page held before, so after two
    searches in a row the list is that of the second alone. *)
Theorem results_replaced (s1 s2 : Request → fetch_outcome) (w : World) :
  trim (searchQuery w) ≠ "" →
  searchResults (step w (Submit s2)) = outcome_results (s2 (request_of w))
  ∧ (∀ old, searchResults (step (set_searchResults old w) (Submit s2))
            = searchResults (step w (Submit s2)))
  ∧ searchResults (step (step w (Submit s1)) (Submit s2))
    = searchResults (step w (Submit s2)).
Proof.
  intros Hq. simpl. split; [by apply handleSearch_results|]. split.
  - intros old. by rewrite !handleSearch_results.
  - destruct (handleSearch_frame s1 w) as (Eq & Em & Eu & _).
    rewrite !handleSearch_results; [|done|by rewrite Eq].
    unfold request_of. by rewrite Eq, Em, Eu.
Qed.

Lemma results_replaced_witness :
  searchResults
    (step (step typed_example
             (Submit (responds (Resolved (json_response 200 (VArr [scenario_item]))))))
       (Submit (responds (Resolved (json_response 200 (VArr []))))))
  = searchResults
      (step typed_example
         (Submit (responds (Resolved (json_response 200 (VArr [])))))).
Proof.
  apply (results_replaced
           (responds (Resolved (json_response 200 (VArr [scenario_item]))))
           (responds (Resolved (json_response 200 (VArr []))))
           typed_example).
  vm_compute; discriminate.
Defined.

(** X9: whatever the outcome, a submit leaves the query text, the mode, the
    MeSH switch, the filters and the set of expanded identifiers alone.
    The expanded set holds identifiers, which are positions, so a card of
    the new result list is expanded exactly when its identifier was in the
    set before the search. *)
Theorem submit_keeps_form (server : Request → fetch_outcome) (w : World) :
  searchQuery (step w (Submit server)) = searchQuery w
  ∧ mode (step w (Submit server)) = mode w
  ∧ useMesh (step w (Submit server)) = useMesh w
  ∧ filters (step w (Submit server)) = filters w
  ∧ expandedIds (step w (Submit server)) = expandedIds w
  ∧ (∀ r, card_clamped (render_card (expandedIds (step w (Submit server))) r)
          = negb (bool_decide (id r ∈ expandedIds w))).
Proof.
  simpl. destruct (handleSearch_frame server w) as (Eq & Em & Eu & Ee & Ef).
  repeat split; try done. intros r. simpl. by rewrite Ee.
Qed.

(** X10: the filters and the expanded set play no part in a search: changing
    the filters or toggling a card before a submit gives the same world as
    doing it after, so the request sent and the results stored are the
    same with any filter selection. *)
Theorem submit_ignores_filters (server : Request → fetch_outcome) (w : World)
    (f : Filters.t) (rid : nat) :
  step (step w (ChangeFilters f)) (Submit server)
  = step (step w (Submit server)) (ChangeFilters f)
  ∧ step (step w (Toggle rid)) (Submit server)
    = step (step w (Submit server)) (Toggle rid)
  ∧ requests (step (step w (ChangeFilters f)) (Submit server))
    = requests (step w (Submit server))
  ∧ searchResults (step (step w (ChangeFilters f)) (Submit server))
    = searchResults (step w (Submit server)).
Proof.
  assert (∀ g : World → World,
            (∀ v, searchQuery (g v) = searchQuery v ∧ mode (g v) = mode v
                  ∧ useMesh (g v) = useMesh v) →
            (∀ v, g (set_defaultPrevented (S (defaultPrevented v)) v)
                  = set_defaultPrevented (S (defaultPrevented (g v))) (g v)) →
            (∀ e r v, g (recovered e r (awaiting v)) = recovered e r (awaiting (g v))) →
            (∀ l m r v, g (succeeded l m r (awaiting v))
                        = succeeded l m r (awaiting (g v))) →
            exec (handleSearch server) (g w) = g (exec (handleSearch server) w))
    as Hcomm.
  { intros g Hg Hblank Hrec Hsucc. destruct (Hg w) as (Eq & Em & Eu).
    unfold exec. destruct (decide (trim (searchQuery w) = "")) as [Hq|Hq].
    { rewrite !handleSearch_blank by by rewrite ?Eq. simpl. by rewrite Hblank. }
    rewrite !handleSearch_submitting by by rewrite ?Eq.
    rewrite Eq, Em, Eu.
    destruct (server (search_request (searchQuery w) (mode w) (useMesh w)))
      as [|resp] eqn:Hs.
    { rewrite !(search_guarded_rejected server _ _ _ _ Hs). simpl. by rewrite Hrec. }
    destruct (ok resp) eqn:Hok.
    2: { rewrite !(search_guarded_not_ok server _ _ _ _ resp Hs Hok). simpl.
         by rewrite Hrec. }
    destruct (json_body resp) as [data|] eqn:Hj.
    2: { rewrite !(search_guarded_not_json server _ _ _ _ resp Hs Hok Hj). simpl.
         by rewrite Hrec. }
    destruct (normalize data) as [l|e] eqn:Hn.
    - rewrite !(search_guarded_mapped server _ _ _ _ resp data l Hs Hok Hj Hn).
      simpl. by rewrite Hsucc.
    - rewrite !(search_guarded_not_mapped server _ _ _ _ resp data e Hs Hok Hj Hn).
      simpl. by rewrite Hrec. }
  assert (step (step w (ChangeFilters f)) (Submit server)
          = step (step w (Submit server)) (ChangeFilters f)) as Hf.
  { simpl. by apply (Hcomm (set_filters f)). }
  split; [exact Hf|]. split.
  { simpl. by apply (Hcomm (onToggle rid)). }
  rewrite Hf. done.
Qed.

(** ** Invariants of the page *)

Lemma step_accounting (w : World) (e : event) :
  ∃ rs cs,
    requests (step w e) = (requests w ++ rs)%list
    ∧ console (step w e) = (console w ++ cs)%list
    ∧ (length rs ≤ count_submits [e])%nat
    ∧ (length cs ≤ length rs)%nat.
Proof.
  destruct e as [s|f|m|b|server|rid]; simpl;
    try (exists [], []; rewrite !app_nil_r; repeat split; simpl; lia).
  unfold exec. destruct (decide (trim (searchQuery w) = "")) as [Hq|Hq].
  { rewrite handleSearch_blank by done. exists [], []. rewrite !app_nil_r.
    repeat split; simpl; lia. }
  rewrite handleSearch_submitting by done.
  destruct (search_guarded_cases server (searchQuery w) (mode w) (useMesh w)
              (awaiting w)) as [[entry ->]|(l & m & ->)]; simpl.
  - exists [search_request (searchQuery w) (mode w) (useMesh w)], [entry].
    repeat split; simpl; lia.
  - exists [search_request (searchQuery w) (mode w) (useMesh w)], [].
    rewrite app_nil_r. repeat split; simpl; lia.
Qed.

Lemma count_submits_cons (e : event) (es : list event) :
  count_submits (e :: es) = count_submits [e] + count_submits es.
Proof. by destruct e. Qed.

(** X11: the page sends at most one request per submit and never one on
    its own (no retry, no request on typing or toggling); requests and
    console entries are only ever appended, and there are never more new
    console entries than new requests: each request is reported at most
    once. *)
Theorem one_request_per_submit (es : list event) (w : World) :
  ∃ rs cs,
    requests (run es w) = (requests w ++ rs)%list
    ∧ console (run es w) = (console w ++ cs)%list
    ∧ (length rs ≤ count_submits es)%nat
    ∧ (length cs ≤ length rs)%nat.
Proof.
  revert w. induction es as [|e es IH]; intros w.
  { exists [], []. simpl. rewrite !app_nil_r. repeat split; lia. }
  change (run (e :: es) w) with (run es (step w e)).
  destruct (step_accounting w e) as (rs1 & cs1 & Hr1 & Hc1 & Hn1 & Hm1).
  destruct (IH (step w e)) as (rs2 & cs2 & Hr2 & Hc2 & Hn2 & Hm2).
  exists (rs1 ++ rs2)%list, (cs1 ++ cs2)%list.
  rewrite Hr2, Hc2, Hr1, Hc1, <- !app_assoc, !length_app.
  rewrite (count_submits_cons e es). repeat split; lia.
Qed.



(** Whatever holds of the empty list and of every list [normalize] returns
    holds of the result list in every world the page can reach. *)
Lemma reachable_results (P : list SearchResult → Prop) :
  P [] →
  (∀ data l, normalize data = Ok l → P l) →
  ∀ es w, P (searchResults w) → P (searchResults (run es w)).
Proof.
  intros Hnil Hnorm es. induction es as [|e es IH]; intros w Hw; [done|].
  simpl. apply IH. destruct e as [s|f|m|b|server|rid]; simpl; try done.
  destruct (decide (trim (searchQuery w) = "")) as [Hq|Hq].
  { unfold exec. by rewrite handleSearch_blank. }
  rewrite handleSearch_results by done. unfold outcome_results, body_results.
  destruct (server (request_of w)) as [|resp]; [done|].
  destruct (ok resp); [|done].
  destruct (json_body resp) as [data|]; [|done].
  destruct (normalize data) as [l|] eqn:Hn; [|done]. by eapply Hnorm.
Qed.

Lemma normalize_seq_ids (data : value) (l : list SearchResult) :
  normalize data = Ok l → map id l = seq 1 (length l).
Proof.
  rewrite normalize_items. destruct (response_items data) as [items|]; [|done].
  by intros H%array_map_ids.
Qed.

(** X13: in every world reachable from the initial page the stored results
    carry the identifiers 1, 2, ..., n in order, so the keys of the cards
    are distinct and the toggle of one card flips the clamp of that card
    and of no other card on the page. *)
Theorem reachable_ids (es : list event) :
  map id (searchResults (run es initial))
  = seq 1 (length (searchResults (run es initial)))
  ∧ (∀ i j ri rj,
       searchResults (run es initial) !! i = Some ri →
       searchResults (run es initial) !! j = Some rj →
       card_clamped
         (render_card (expandedIds (step (run es initial) (Toggle (id ri)))) rj)
       = if decide (i = j)
         then negb (card_clamped (render_card (expandedIds (run es initial)) rj))
         else card_clamped (render_card (expandedIds (run es initial)) rj)).
Proof.
  assert (map id (searchResults (run es initial))
          = seq 1 (length (searchResults (run es initial)))) as Hseq.
  { apply (reachable_results (λ l, map id l = seq 1 (length l)));
      [done|apply normalize_seq_ids|done]. }
  split; [exact Hseq|].
  intros i j ri rj Hi Hj.
  assert (∀ k r, searchResults (run es initial) !! k = Some r → id r = S k) as Hid.
  { intros k r Hk.
    assert (map id (searchResults (run es initial)) !! k = Some (id r)) as Hm
      by by rewrite list_lookup_fmap, Hk.
    rewrite Hseq in Hm. by apply lookup_seq in Hm as [-> _]. }
  rewrite (Hid i ri Hi). simpl. pose proof (Hid j rj Hj) as Ej.
  case_decide as Hij.
  - subst j. rewrite Ej.
    destruct (decide (S i ∈ expandedIds (run es initial))) as [Hin|Hin].
    + rewrite (bool_decide_eq_true_2 _ Hin), bool_decide_eq_false_2; [done|].
      rewrite elem_of_toggle. intuition congruence.
    + rewrite (bool_decide_eq_false_2 _ Hin), bool_decide_eq_true_2; [done|].
      rewrite elem_of_toggle. by right.
  - f_equal. apply bool_decide_ext. rewrite elem_of_toggle, Ej.
    intuition congruence.
Qed.

Lemma reachable_ids_witness :
  card_clamped (render_card (expandedIds after_success)
                  {| id := 1; title := VStr "T"; authors := VStr "A";
                     journal := VStr "J"; year := VNum 2023; abstract := VStr "...";
                     relevanceScore := VNum (87 # 100); mesh_terms := VArr [VStr "x"];
                     url_full_text := VNull; url_pubmed := VNull |}) = true
  ∧ card_clamped (render_card (expandedIds (step after_success (Toggle 1)))
                    {| id := 1; title := VStr "T"; authors := VStr "A";
                       journal := VStr "J"; year := VNum 2023;
                       abstract := VStr "..."; relevanceScore := VNum (87 # 100);
                       mesh_terms := VArr [VStr "x"]; url_full_text := VNull;
                       url_pubmed := VNull |}) = false.
Proof.
  split; [reflexivity|].
  exact (proj2 (reachable_ids
                  [ChangeQuery "cancer immunotherapy";
                   Submit (responds
                             (Resolved (json_response 200 (VObj scenario_wrapped))))])
           0 0 _ _ eq_refl eq_refl).
Defined.

Lemma js_or_truthy_or (a d : value) : truthy_or d (js_or a d).
Proof. unfold truthy_or, js_or. destruct (truthy a) eqn:E; [by left|by right]. Qed.

Lemma truthy_or_defined (d v : value) :
  truthy_or d v → is_undefined d = false → is_undefined v = false.
Proof. intros [H| ->]; [by destruct v|done]. Qed.

Lemma mapItem_normal_form (item : value) (idx : nat) (r : SearchResult) :
  mapItem item idx = Ok r → normal_form r.
Proof.
  destruct (mapItem_cases item idx) as [[_ ->]|[Hn _]]; [done|].
  rewrite mapItem_defined by done. intros [= <-]. unfold normal_form.
  cbn [id title authors journal year abstract relevanceScore mesh_terms
         url_full_text url_pubmed].
  split_and!; try apply js_or_truthy_or.
  unfold js_or.
  by destruct (truthy (opt_member (opt_member item "record") "mesh_terms")) eqn:E.
Qed.

Lemma array_map_normal_form (items : list value) (idx : nat)
    (l : list SearchResult) :
  array_map mapItem items idx = Ok l → Forall normal_form l.
Proof.
  revert idx l. induction items as [|x items IH]; simpl; intros idx l H.
  { injection H as <-. constructor. }
  destruct (mapItem x idx) as [y|] eqn:Hx; simpl in H; [|discriminate].
  destruct (array_map mapItem items (S idx)) as [ys|] eqn:E; simpl in H;
    [|discriminate].
  injection H as <-. constructor; [by eapply mapItem_normal_form|by eapply IH].
Qed.

(** In every world reachable from the initial page each field of each stored
    result is truthy or the default of that field, and none is
    [undefined]. *)
Lemma reachable_normal_form (es : list event) :
  Forall normal_form (searchResults (run es initial))
  ∧ Forall (λ r, defined_fields r = true) (searchResults (run es initial)).
Proof.
  assert (Forall normal_form (searchResults (run es initial))) as H.
  { apply (reachable_results (Forall normal_form)); [constructor| |constructor].
    intros data l. rewrite normalize_items.
    destruct (response_items data) as [items|]; [|done].
    apply array_map_normal_form. }
  split; [exact H|]. eapply Forall_impl; [exact H|].
  intros r (Ht & Hau & Hj & Hy & Hab & Hs & Hm & Huf & Hup).
  unfold defined_fields.
  rewrite (truthy_or_defined _ _ Ht), (truthy_or_defined _ _ Hau),
    (truthy_or_defined _ _ Hj), (truthy_or_defined _ _ Hy),
    (truthy_or_defined _ _ Hab), (truthy_or_defined _ _ Hs),
    (truthy_or_defined _ _ Huf), (truthy_or_defined _ _ Hup) by done.
  by rewrite (truthy_or_defined (VArr []) (mesh_terms r) (or_introl Hm)).
Qed.

Lemma nested_read (item : value) (k : string) :
  opt_member (opt_member item "record") k
  = default VUndefined (record_value item k).
Proof.
  destruct item as [| | | | | |o]; try done. simpl.
  by destruct (o !! "record") as [[| | | | | |rec]|].
Qed.

Lemma own_read (item : value) (k : string) :
  opt_member item k = default VUndefined (item_value item k).
Proof. by destruct item. Qed.

Lemma js_or_copied (d : value) (raw : option value) :
  copied_or d raw (js_or (default VUndefined raw) d).
Proof.
  unfold copied_or, js_or. destruct raw as [x|]; simpl; [|done].
  by destruct (truthy x).
Qed.

(** A result the callback returns takes each field from its item. *)
Lemma mapItem_copies (item : value) (idx : nat) (r : SearchResult) :
  mapItem item idx = Ok r →
  id r = idx + 1
  ∧ copied_or (VStr "") (record_value item "title") (title r)
  ∧ copied_or (VStr "") (record_value item "authors") (authors r)
  ∧ copied_or (VStr "") (record_value item "journal") (journal r)
  ∧ copied_or (VStr "") (record_value item "year") (year r)
  ∧ copied_or (VStr "") (record_value item "abstract") (abstract r)
  ∧ copied_or (VNum 0) (item_value item "score") (relevanceScore r)
  ∧ copied_or (VArr []) (record_value item "mesh_terms") (mesh_terms r)
  ∧ copied_or VNull (record_value item "url_full_text") (url_full_text r)
  ∧ copied_or VNull (record_value item "url_pubmed") (url_pubmed r).
Proof.
  destruct (mapItem_cases item idx) as [[_ ->]|[Hn _]]; [done|].
  rewrite mapItem_defined by done. intros [= <-].
  cbn [id title authors journal year abstract relevanceScore mesh_terms
         url_full_text url_pubmed].
  rewrite !nested_read, own_read. split; [done|].
  split_and!; apply js_or_copied.
Qed.

(** X15: after a successful search each stored result takes its fields from
    the response item at its position: its identifier is the position plus
    one; a title, author list, journal, year, abstract, score, mesh_terms
    or URL that the item holds with a truthy value is stored as it came,
    unchanged; one that is missing, [null], [false], 0 or empty is stored as
    the default of that field (the empty string, 0 for the score, the empty
    list for mesh_terms, [null] for the two URLs). Hence in every world
    reachable from the initial page each stored field is truthy or its
    default, and none is [undefined]. *)
Theorem stored_fields_from_response (server : Request → fetch_outcome)
    (w : World) (resp : Response) (data : value) (l : list SearchResult) :
  trim (searchQuery w) ≠ "" →
  server (request_of w) = Resolved resp →
  ok resp = true →
  json_body resp = Some data →
  normalize data = Ok l →
  (∃ items,
     response_items data = Some items
     ∧ length (searchResults (step w (Submit server))) = length items
     ∧ ∀ i item,
         items !! i = Some item →
         ∃ r, searchResults (step w (Submit server)) !! i = Some r
              ∧ id r = i + 1
              ∧ copied_or (VStr "") (record_value item "title") (title r)
              ∧ copied_or (VStr "") (record_value item "authors") (authors r)
              ∧ copied_or (VStr "") (record_value item "journal") (journal r)
              ∧ copied_or (VStr "") (record_value item "year") (year r)
              ∧ copied_or (VStr "") (record_value item "abstract") (abstract r)
              ∧ copied_or (VNum 0) (item_value item "score") (relevanceScore r)
              ∧ copied_or (VArr []) (record_value item "mesh_terms") (mesh_terms r)
              ∧ copied_or VNull (record_value item "url_full_text")
                  (url_full_text r)
              ∧ copied_or VNull (record_value item "url_pubmed") (url_pubmed r))
  ∧ (∀ es, Forall normal_form (searchResults (run es initial))
           ∧ Forall (λ r, defined_fields r = true)
               (searchResults (run es initial))).
Proof.
  intros Hq Hs Hok Hj Hn. split; [|apply reachable_normal_form].
  assert (searchResults (step w (Submit server)) = l) as ->.
  { simpl. unfold exec.
    by rewrite (served_mapped server w resp Hq Hs Hok data l Hj Hn). }
  rewrite normalize_items in Hn.
  destruct (response_items data) as [items|]; [|done].
  exists items. split; [done|]. split; [by eapply array_map_length|].
  intros i item Hi.
  destruct (array_map_lookup _ _ _ _ Hn i item Hi) as (r & Hr & Hm).
  exists r. split; [done|]. by apply mapItem_copies.
Qed.

Lemma stored_fields_from_response_witness :
  ∃ r, searchResults
         (step typed_example
            (Submit (responds (Resolved (json_response 200 (VArr [scenario_item]))))))
       !! 0 = Some r
       ∧ title r = VStr "T"
       ∧ url_pubmed r = VNull.
Proof.
  destruct (stored_fields_from_response
              (responds (Resolved (json_response 200 (VArr [scenario_item]))))
              typed_example (json_response 200 (VArr [scenario_item]))
              (VArr [scenario_item])
              [{| id := 1; title := VStr "T"; authors := VStr "A";
                  journal := VStr "J"; year := VNum 2023; abstract := VStr "...";
                  relevanceScore := VNum (87 # 100); mesh_terms := VArr [VStr "x"];
                  url_full_text := VNull; url_pubmed := VNull |}])
    as [(items & Hitems & _ & H) _].
  - vm_compute; discriminate.
  - reflexivity.
  - reflexivity.
  - reflexivity.
  - reflexivity.
  - injection Hitems as <-.
    destruct (H 0 scenario_item eq_refl)
      as (r & Hr & _ & Ht & _ & _ & _ & _ & _ & _ & _ & Hu).
    exists r. split; [exact Hr|]. split; [exact Ht|exact Hu].
Defined.

(** ** The link to PubMed *)

(** X14: the "View on PubMed" button of a card is disabled exactly when a
    click on it would open nothing. For a result mapped from an item whose
    record has no [url_pubmed], or a falsy one, the button is disabled and
    the click does nothing; otherwise the click opens the URL of the record
    as it came, in a new tab, with [noopener,noreferrer]. *)
Theorem pubmed_link (item : value) (idx : nat) (r : SearchResult)
    (expanded : gset nat) :
  mapItem item idx = Ok r →
  (card_pubmed_disabled (render_card expanded r) = true ↔ pubmed_click r = None)
  ∧ (has_field item "url_pubmed" = false →
     card_pubmed_disabled (render_card expanded r) = true)
  ∧ (truthy (opt_member (opt_member item "record") "url_pubmed") = false →
     card_pubmed_disabled (render_card expanded r) = true
     ∧ pubmed_click r = None)
  ∧ (truthy (opt_member (opt_member item "record") "url_pubmed") = true →
     card_pubmed_disabled (render_card expanded r) = false
     ∧ pubmed_click r
       = Some (opt_member (opt_member item "record") "url_pubmed",
               "_blank", "noopener,noreferrer")).
Proof.
  destruct (mapItem_cases item idx) as [[_ ->]|[Hn _]]; [done|].
  rewrite mapItem_defined by done. intros [= <-].
  unfold pubmed_click, render_card, js_or.
  cbn [id title authors journal year abstract relevanceScore mesh_terms
         url_full_text url_pubmed card_pubmed_disabled].
  split_and!.
  - destruct (truthy (opt_member (opt_member item "record") "url_pubmed")) eqn:E;
      simpl; rewrite ?E; simpl; split; done.
  - intros Hf. by rewrite absent_field_undefined.
  - intros E. by rewrite E.
  - intros E. by rewrite E, E.
Qed.

Lemma pubmed_link_witness :
  mapItem scenario_item 0 = Ok
    {| id := 1; title := VStr "T"; authors := VStr "A"; journal := VStr "J";
       year := VNum 2023; abstract := VStr "..."; relevanceScore := VNum (87 # 100);
       mesh_terms := VArr [VStr "x"]; url_full_text := VNull; url_pubmed := VNull |}
  ∧ card_pubmed_disabled
      (render_card ∅
         {| id := 1; title := VStr "T"; authors := VStr "A"; journal := VStr "J";
            year := VNum 2023; abstract := VStr "...";
            relevanceScore := VNum (87 # 100); mesh_terms := VArr [VStr "x"];
            url_full_text := VNull; url_pubmed := VNull |}) = true.
Proof.
  split; [reflexivity|].
  apply (pubmed_link scenario_item 0
           {| id := 1; title := VStr "T"; authors := VStr "A"; journal := VStr "J";
              year := VNum 2023; abstract := VStr "...";
              relevanceScore := VNum (87 # 100); mesh_terms := VArr [VStr "x"];
              url_full_text := VNull; url_pubmed := VNull |} ∅);
    reflexivity.
Defined.

(** ** The guard of the handler *)

Lemma append_cons (c : ascii) (a b : string) :
  String c a ++ b = String c (a ++ b).
Proof. reflexivity. Qed.

Lemma append_assoc (a b c : string) : (a ++ b) ++ c = a ++ (b ++ c).
Proof.
  induction a as [|x a IH]; [done|]. rewrite !append_cons. by f_equal.
Qed.

Lemma append_empty_r (a : string) : a ++ "" = a.
Proof.
  induction a as [|x a IH]; [done|]. rewrite append_cons. by f_equal.
Qed.

Lemma rev_app_append (s1 s2 : string) :
  String.rev_app s1 s2 = String.rev s1 ++ s2.
Proof.
  unfold String.rev. revert s2.
  induction s1 as [|c s1 IH]; simpl; intros s2; [done|].
  rewrite (IH (String c s2)), (IH (String c "")). by rewrite append_assoc.
Qed.

Lemma rev_cons (c : ascii) (s : string) :
  String.rev (String c s) = String.rev s ++ String c "".
Proof. unfold String.rev at 1. simpl. apply rev_app_append. Qed.

Lemma rev_append (a b : string) :
  String.rev (a ++ b) = String.rev b ++ String.rev a.
Proof.
  induction a as [|c a IH].
  { by rewrite append_empty_r. }
  rewrite append_cons, !rev_cons, IH. apply append_assoc.
Qed.

Lemma rev_involutive (s : string) : String.rev (String.rev s) = s.
Proof.
  induction s as [|c s IH]; [done|].
  rewrite rev_cons, rev_append, IH. done.
Qed.

Lemma trimStart_split (s : string) :
  ∃ pre, s = pre ++ trimStart s ∧ all_whitespace pre = true.
Proof.
  induction s as [|c s (pre & Hs & Hp)]; simpl.
  { by exists "". }
  destruct (is_whitespace c) eqn:E.
  - exists (String c pre). rewrite append_cons, <- Hs. simpl. by rewrite E, Hp.
  - by exists "".
Qed.

Lemma trimStart_clean (s : string) : starts_clean (trimStart s) = true.
Proof.
  induction s as [|c s IH]; simpl; [done|].
  destruct (is_whitespace c) eqn:E; [done|]. simpl. by rewrite E.
Qed.

Lemma trimStart_id (s : string) : starts_clean s = true → trimStart s = s.
Proof. destruct s as [|c s]; simpl; [done|]. by intros ->%negb_true_iff. Qed.

Lemma trimEnd_split (s : string) :
  ∃ post, s = trimEnd s ++ post ∧ all_whitespace post = true.
Proof.
  destruct (trimStart_split (String.rev s)) as (pre & Hs & Hp).
  exists (String.rev pre). split.
  - unfold trimEnd. rewrite <- rev_append, <- Hs. by rewrite rev_involutive.
  - by rewrite all_whitespace_rev.
Qed.

Lemma trimEnd_clean (s : string) : ends_clean (trimEnd s) = true.
Proof.
  unfold ends_clean, trimEnd. rewrite rev_involutive. apply trimStart_clean.
Qed.

Lemma trimEnd_id (s : string) : ends_clean s = true → trimEnd s = s.
Proof.
  unfold ends_clean, trimEnd. intros H. rewrite trimStart_id by done.
  apply rev_involutive.
Qed.

Lemma trimEnd_keeps_start (s : string) :
  starts_clean s = true → starts_clean (trimEnd s) = true.
Proof.
  destruct (trimEnd_split s) as (post & Hs & _).
  destruct (trimEnd s) as [|c t]; [done|]. rewrite Hs, append_cons. done.
Qed.

(** X16: a submit sends a request exactly when the query has a character
    that is not white space. The text the guard tests is the query with
    white space taken off both ends and nothing else: the query is white
    space, then the trimmed text, then white space; the trimmed text
    neither starts nor ends with white space, and trimming it again changes
    nothing. *)
Theorem guard_passes_iff (server : Request → fetch_outcome) (w : World) :
  (requests (step w (Submit server)) ≠ requests w
   ↔ all_whitespace (searchQuery w) = false)
  ∧ (∃ pre post,
       searchQuery w = pre ++ trim (searchQuery w) ++ post
       ∧ all_whitespace pre = true
       ∧ all_whitespace post = true)
  ∧ starts_clean (trim (searchQuery w)) = true
  ∧ ends_clean (trim (searchQuery w)) = true
  ∧ trim (trim (searchQuery w)) = trim (searchQuery w).
Proof.
  split_and!.
  - simpl. destruct (all_whitespace (searchQuery w)) eqn:E.
    + apply trim_empty in E. unfold exec. rewrite handleSearch_blank by done.
      split; [by intros H|done].
    + assert (trim (searchQuery w) ≠ "") as Hq.
      { intros H%trim_empty. congruence. }
      rewrite requests_after_submit by done. split; [done|]. intros _ H.
      apply (f_equal length) in H. rewrite length_app in H. simpl in H. lia.
  - destruct (trimStart_split (searchQuery w)) as (pre & Hs & Hp).
    destruct (trimEnd_split (trimStart (searchQuery w))) as (post & Ht & Hpost).
    exists pre, post. split; [|done]. unfold trim. by rewrite <- Ht.
  - apply trimEnd_keeps_start, trimStart_clean.
  - apply trimEnd_clean.
  - unfold trim at 1. rewrite trimStart_id.
    + apply trimEnd_id, trimEnd_clean.
    + apply trimEnd_keeps_start, trimStart_clean.
Qed.

(** ** The handler on a status outside 200-299 *)

(** X17: on a status outside 200-299 the body of the response is never
    looked at: two responses with the same such status leave the same
    world, whatever their bodies, and for a query that is not blank the
    handler logs exactly one entry, "Search failed" with the status, and
    stores the empty list. *)
Theorem failed_status_ignores_body (st : nat) (b1 b2 : option value) (w : World) :
  ok {| status := st; json_body := b1 |} = false →
  handleSearch (responds (Resolved {| status := st; json_body := b1 |})) w
  = handleSearch (responds (Resolved {| status := st; json_body := b2 |})) w
  ∧ (trim (searchQuery w) ≠ "" →
     console
       (exec (handleSearch (responds (Resolved {| status := st; json_body := b1 |})))
          w)
     = (console w ++ [("Search failed", LogStatus st)])%list
     ∧ searchResults
         (exec (handleSearch
                  (responds (Resolved {| status := st; json_body := b1 |}))) w)
       = []).
Proof.
  intros Hok.
  assert (ok {| status := st; json_body := b2 |} = false) as Hok2 by exact Hok.
  destruct (decide (trim (searchQuery w) = "")) as [Hq|Hq].
  { split; [by rewrite !handleSearch_blank|done]. }
  unfold exec. rewrite !handleSearch_submitting by done.
  rewrite (search_guarded_not_ok _ _ _ _ _ {| status := st; json_body := b1 |}
             eq_refl Hok).
  rewrite (search_guarded_not_ok _ _ _ _ _ {| status := st; json_body := b2 |}
             eq_refl Hok2).
  done.
Qed.

Lemma failed_status_ignores_body_witness :
  ok {| status := 404; json_body := Some (VArr [scenario_item]) |} = false
  ∧ handleSearch
      (responds (Resolved {| status := 404;
                             json_body := Some (VArr [scenario_item]) |}))
      typed_example
    = handleSearch
        (responds (Resolved {| status := 404; json_body := None |}))
        typed_example.
Proof.
  split; [reflexivity|].
  apply (failed_status_ignores_body 404 (Some (VArr [scenario_item])) None
           typed_example).
  reflexivity.
Defined.


